(** * annotation_matcher: matching manual and automatic waggle annotations

    A shallow embedding of [annotation_matcher.py].  Python integers are
    [Z]; pixel coordinates are integers, as the signatures annotate them;
    [datetime.datetime] and [datetime.timedelta] values are whole numbers
    of microseconds in [Z]; the float that [start_frame / video_fps]
    produces is an IEEE binary64 value ([spec_float]); strings are
    [string]; a pandas cell of dtype "string" is an [option string] whose
    [None] is [pd.NA]; an uncaught Python exception is the [Err] branch of
    [result]; the [results] dict is a [gmap] keyed by the video name.

    The first part holds the program, function by function; the second
    part holds its properties. *)

From Stdlib Require Import ZArith QArith Ascii.
From Stdlib Require Import Floats.SpecFloat.
From stdpp Require Import gmap strings list sorting.

Local Open Scope Z_scope.

(** ** Exceptions and results *)

(** The exceptions that can leave a function of the module.  The three
    marker errors are the ones the Coordinate Transformer may raise. *)
Inductive exn : Type :=
| ZeroDivisionError
| OverflowError
| ValueError
| TypeError
| AssertionError
| UnableToOpen
| NoFrameIn
| UnableToFindMatchingFrame
| InsufficientMarkers
| MarkerCountMismatch
| DegenerateMarkers.

Inductive result (A : Type) : Type :=
| Ok (a : A)
| Err (e : exn).
Arguments Ok {A} a.
Arguments Err {A} e.

#[export] Instance result_ret : MRet result := fun A a => Ok a.
#[export] Instance result_bind : MBind result := fun A B k m =>
  match m with
  | Ok a => k a
  | Err e => Err e
  end.

(** ** Timestamp strings *)

Module Str.

(** [s.count(sep)] for a one-character separator. *)
Fixpoint count (sep : ascii) (s : string) : nat :=
  match s with
  | EmptyString => 0
  | String c s' => (if Ascii.eqb c sep then 1 else 0) + count sep s'
  end%nat.

(** [s.split(sep)] for a one-character separator: the result is never
    empty, and an empty string gives one empty section. *)
Fixpoint split (sep : ascii) (s : string) : list string :=
  match s with
  | EmptyString => [EmptyString]
  | String c s' =>
      if Ascii.eqb c sep then EmptyString :: split sep s'
      else match split sep s' with
           | [] => [String c EmptyString]
           | h :: t => String c h :: t
           end
  end.

End Str.

Definition dot : ascii := "."%char.

(** [sections[i]]: the index is in range wherever the source uses it
    (lemma [split_length] below), so the default is never returned. *)
Definition section_at (sections : list string) (i : nat) : string :=
  nth i sections EmptyString.

Definition truncate_higher_precision_timestamp (timestamp : string) : string :=
  let precision_section_count := Str.count dot timestamp in
  if (2 <=? precision_section_count)%nat then
    let sections := Str.split dot timestamp in
    section_at sections 0 +:+ "." +:+ section_at sections 1 +:+ "Z"
  else timestamp.

(** ** Floats, durations and instants *)

(** IEEE binary64, the format of a Python float. *)
Definition prec : Z := 53.
Definition emax : Z := 1024.

(** [a / b] on Python integers: the correctly rounded quotient.  A zero
    divisor raises [ZeroDivisionError], a quotient beyond the largest
    float raises [OverflowError]. *)
Definition int_true_divide (a b : Z) : result spec_float :=
  if bool_decide (b = 0) then Err ZeroDivisionError
  else if bool_decide (a = 0) then Ok (S754_zero (bool_decide (b < 0)))
  else
    match SFdiv prec emax
            (S754_finite (bool_decide (a < 0)) (Z.to_pos (Z.abs a)) 0)
            (S754_finite (bool_decide (b < 0)) (Z.to_pos (Z.abs b)) 0) with
    | S754_infinity _ => Err OverflowError
    | q => Ok q
    end.

(** [math.modf] on the magnitude [m * 2^e]: the whole part as an integer
    and the fractional part as an exact (not yet normalised) mantissa
    over the same exponent. *)
Definition modf_magnitude (m : positive) (e : Z) : Z * Z :=
  if bool_decide (0 ≤ e) then (Z.pos m * 2 ^ e, 0)
  else (Z.pos m ≫ (- e), Z.pos m `mod` 2 ^ (- e)).

(** [round] of the magnitude [m * 2^e] to an integer, halves to even. *)
Definition round_half_even_magnitude (m : positive) (e : Z) : Z :=
  if bool_decide (0 ≤ e) then Z.pos m * 2 ^ e
  else
    let q := Z.pos m ≫ (- e) in
    let r := Z.pos m `mod` 2 ^ (- e) in
    let half := 2 ^ (- e - 1) in
    if bool_decide (r < half) then q
    else if bool_decide (half < r) then q + 1
    else if Z.even q then q else q + 1.

Definition us_per_second : Z := 1000000.
Definition us_per_day : Z := 86400 * us_per_second.

(** A [timedelta] holds at most 999999999 days in either direction. *)
Definition timedelta_in_range (us : Z) : Prop :=
  - 999999999 ≤ us `div` us_per_day ≤ 999999999.

#[export] Instance timedelta_in_range_dec us : Decision (timedelta_in_range us).
Proof. unfold timedelta_in_range. apply _. Defined.

(** [datetime.timedelta(seconds=s)] for a float [s], in microseconds: the
    whole seconds are converted exactly; the fractional part is multiplied
    by 1e6 in float arithmetic and that product is rounded to the nearest
    microsecond, halves to even. *)
Definition timedelta_of_seconds (s : spec_float) : result Z :=
  match s with
  | S754_nan => Err ValueError
  | S754_infinity _ => Err OverflowError
  | S754_zero _ => Ok 0
  | S754_finite sign m e =>
      let '(intpart, fracpart) := modf_magnitude m e in
      let leftover :=
        match fracpart with
        | Z.pos fm =>
            match SFmul prec emax (S754_finite false fm e)
                    (S754_finite false (Z.to_pos us_per_second) 0) with
            | S754_finite _ m' e' => round_half_even_magnitude m' e'
            | _ => 0
            end
        | _ => 0
        end in
      let magnitude := intpart * us_per_second + leftover in
      let us := if sign then - magnitude else magnitude in
      if bool_decide (timedelta_in_range us) then Ok us else Err OverflowError
  end.

(** A [datetime] is the number of microseconds since 0001-01-01T00:00:00;
    the last representable instant is 9999-12-31T23:59:59.999999. *)
Definition datetime_in_range (us : Z) : Prop :=
  0 ≤ us < 3652059 * us_per_day.

#[export] Instance datetime_in_range_dec us : Decision (datetime_in_range us).
Proof. unfold datetime_in_range. apply _. Defined.

(** [dt + td]; [dt - td] is [datetime_add dt (- td)]. *)
Definition datetime_add (dt td : Z) : result Z :=
  if bool_decide (datetime_in_range (dt + td)) then Ok (dt + td)
  else Err OverflowError.

(** [timedelta(seconds=start_frame / video_fps)]. *)
Definition time_elapsed (start_frame video_fps : Z) : result Z :=
  seconds ← int_true_divide start_frame video_fps;
  timedelta_of_seconds seconds.

(** The quotient [n / r] seconds in exact arithmetic, rounded to the
    nearest microsecond (halves up), and the test that [time_elapsed]
    returns it. *)
Definition nearest_microsecond (n r : Z) : Z :=
  (2 * n * us_per_second + r) `div` (2 * r).

Definition elapsed_is_nearest (r n : Z) : bool :=
  match time_elapsed n r with
  | Ok e => bool_decide (e = nearest_microsecond n r)
  | Err _ => false
  end.

(** ** Candidates and the temporal filter *)

Definition point : Type := Z * Z.

(** One detection of the WDD.  Only the columns the filters read are kept;
    [waggle_angle] and [waggle_duration] are floats that are copied to the
    output and never inspected. *)
Record Candidate : Type := {
  waggle_id : string;
  timestamp_begin : Z;
  roi_center : point;
}.

#[export] Instance Candidate_eq_dec : EqDecision Candidate.
Proof. solve_decision. Defined.

(** The [timestamp_begin] column is assigned its parsed form on every call;
    parsing an already parsed column changes nothing, so the shared frame
    is the same before and after. *)
Definition filtered_by_timestamp (candidates : list Candidate)
    (video_starttime delta start_frame video_fps : Z)
  : result (list Candidate) :=
  time_elapsed_until_waggle ← time_elapsed start_frame video_fps;
  waggle_timestamp ← datetime_add video_starttime time_elapsed_until_waggle;
  start_time ← datetime_add waggle_timestamp (- delta);
  end_time ← datetime_add waggle_timestamp delta;
  Ok (filter (λ c, start_time ≤ timestamp_begin c ≤ end_time) candidates).


(** ** Label records and the label filter *)

(** A cell of a pandas column of dtype "string": [None] is [pd.NA]. *)
Definition cell : Type := option string.

Definition isna (c : cell) : bool :=
  match c with
  | None => true
  | Some _ => false
  end.

(** [c == s] on a cell: comparing [pd.NA] gives [pd.NA] (here [None]),
    anything else gives a [bool]. *)
Definition cell_eq (c : cell) (s : string) : option bool :=
  (λ v, bool_decide (v = s)) <$> c.

(** The truth value Python asks of an operand of [and] / [or]: that of
    [pd.NA] is ambiguous and raises [TypeError]. *)
Definition truth (v : option bool) : result bool :=
  match v with
  | Some b => Ok b
  | None => Err TypeError
  end.

Module Label.

(** One row of [data.csv], restricted to the columns that are read. *)
Record row : Type := {
  waggle_id : string;
  category_label : cell;
  corrected_category_label : cell;
  dance_type : cell;
  corrected_dance_type : cell;
}.

End Label.

Inductive TagStatus : Type := tagged | untagged.

Definition TagStatus_name (t : TagStatus) : string :=
  match t with
  | tagged => "tagged"
  | untagged => "untagged"
  end.

(** [(o == expected and isna(c)) or (not isna(c) and c == expected)]:
    the shape shared by [is_tagged] and [is_waggle].  The first operand of
    the first [and] is tested for truth, so a missing original raises; the
    last comparison is only reached with a correction present, where it is
    a [bool]. *)
Definition original_or_corrected (original corrected : cell) (expected : string)
  : result bool :=
  uncorrected ← truth (cell_eq original expected);
  if uncorrected && isna corrected then Ok true
  else if negb (isna corrected) then truth (cell_eq corrected expected)
  else Ok false.

(** [df] is the one-row frame of the candidate; [df.at[0, column]] reads
    that row. *)
Definition is_tagged (df : Label.row) : result bool :=
  original_or_corrected (Label.category_label df)
    (Label.corrected_category_label df) (TagStatus_name tagged).

Definition is_waggle (df : Label.row) : result bool :=
  original_or_corrected (Label.dance_type df)
    (Label.corrected_dance_type df) "waggle".

(** [is_tagged(csv_row) and is_waggle(csv_row)]. *)
Definition tagged_and_waggle (csv_row : Label.row) : result bool :=
  is_tagged csv_row ≫= λ t : bool,
  if t then is_waggle csv_row else Ok false.

(** The loop that builds [candidates_after_tagged_waggle_check].  A
    failing [assert] leaves the loop at once; the [else] branch evaluates
    both predicates again for its two [print] calls. *)
Fixpoint tagged_waggle_check (csv_df : list Label.row)
    (candidates : list Candidate) : result (list Candidate) :=
  match candidates with
  | [] => Ok []
  | candidate :: rest =>
      let csv_row :=
        filter (λ r, Label.waggle_id r = waggle_id candidate) csv_df in
      if bool_decide (length csv_row ≤ 1)%nat then
        match csv_row with
        | [] => tagged_waggle_check csv_df rest
        | row0 :: _ =>
            tagged_and_waggle row0 ≫= λ keep : bool,
            if keep then
              kept ← tagged_waggle_check csv_df rest;
              Ok (candidate :: kept)
            else
              is_tagged row0;;
              is_waggle row0;;
              tagged_waggle_check csv_df rest
        end
      else Err AssertionError
  end.

(** The LabelRecord of the data model: a category and a dance type, each
    with an optional correction. *)
Record LabelRecord : Type := {
  label_id : string;
  original_category : string;
  corrected_category : option string;
  original_dance_type : string;
  corrected_dance_type_of : option string;
}.

Definition csv_row_of (l : LabelRecord) : Label.row := {|
  Label.waggle_id := label_id l;
  Label.category_label := Some (original_category l);
  Label.corrected_category_label := corrected_category l;
  Label.dance_type := Some (original_dance_type l);
  Label.corrected_dance_type := corrected_dance_type_of l;
|}.

(** The override rule in the words of the specification: a correction
    that is present is authoritative, otherwise the original value is. *)
Definition override_rule (original : string) (corrected : option string)
    (expected : string) : bool :=
  match corrected with
  | Some c => bool_decide (c = expected)
  | None => bool_decide (original = expected)
  end.

(** The decision of the specification for one record. *)
Definition keeps (l : LabelRecord) : bool :=
  override_rule (original_category l) (corrected_category l) "tagged"
  && override_rule (original_dance_type l) (corrected_dance_type_of l) "waggle".

(** The records of a candidate: those that carry its identifier. *)
Definition records_of (labels : list LabelRecord) (c : Candidate)
  : list LabelRecord :=
  filter (λ l, label_id l = waggle_id c) labels.

(** ** Geometry of the spatial filter *)

Definition HD_CAM_RESOLUTION : Z * Z := (3520, 4608).
Definition HD_CAM_FPS : Z := 15.

(** [FRAME_HEIGHT] of the specification is [HD_CAM_RESOLUTION[1]]. *)
Definition FRAME_HEIGHT : Z := HD_CAM_RESOLUTION.2.

Definition unrotate (rotated_coordinates : point) : point :=
  let '(rotated_x, rotated_y) := rotated_coordinates in
  let x := rotated_y in
  let y := HD_CAM_RESOLUTION.2 - rotated_x in
  (x, y).

(** The forward quarter turn named by the specification; the program has
    no such function. *)
Definition forward_rotation (p : point) : point :=
  let '(x, y) := p in (FRAME_HEIGHT - y, x).

Definition fix_padding_error (coordinates : point) : point :=
  let '(x, y) := coordinates in
  (x + 125, y + 125).

Definition is_adjacent (coordinates1 coordinates2 : point)
    (coordinate_tolerance : Z) : bool :=
  let '(x1, y1) := coordinates1 in
  let '(x2, y2) := coordinates2 in
  bool_decide (Z.abs (x1 - x2) ≤ coordinate_tolerance)
  && bool_decide (Z.abs (y1 - y2) ≤ coordinate_tolerance).

(** ** Frame synchronisation *)

(** A decoded frame is its pixel array, flattened; all frames of the two
    videos have one shape, so [(frame == other).all()] holds exactly when
    the two arrays are equal. *)
Definition Frame : Type := list Z.

(** A video file: [None] cannot be opened, [Some frames] decodes to
    [frames] in order. *)
Definition Video : Type := option (list Frame).

Definition get_starting_frame (video : Video) : result Frame :=
  match video with
  | None => Err UnableToOpen
  | Some [] => Err NoFrameIn
  | Some (frame :: _) => Ok frame
  end.

(** The [while] loop of [get_first_matching_frame_index] over the frames
    still to be read: it yields [(match_found, frame_index)]. *)
Fixpoint scan_frames (cut_hd_video_starting_frame : Frame)
    (unread : list Frame) (frame_index : Z) : bool * Z :=
  match unread with
  | [] => (false, frame_index)
  | frame :: unread' =>
      if bool_decide (frame = cut_hd_video_starting_frame)
      then (true, frame_index)
      else scan_frames cut_hd_video_starting_frame unread' (frame_index + 1)
  end.

Definition get_first_matching_frame_index (original_video cut_video : Video)
  : result Z :=
  cut_hd_video_starting_frame ← get_starting_frame cut_video;
  match original_video with
  | None => Err UnableToOpen
  | Some frames =>
      let '(match_found, frame_index) :=
        scan_frames cut_hd_video_starting_frame frames 0 in
      if match_found then Ok frame_index
      else Err UnableToFindMatchingFrame
  end.

(** ** Marker tables *)

Module Marker.

(** One row of a [df_markers.csv]. *)
Record row : Type := {
  timestamp : Z;
  x : Z;
  y : Z;
}.

End Marker.

(** The [for] loop of the lookup: the last timestamp not after the
    detection, in the order of iteration. *)
Definition timestamp_to_show (detection_timestamp : Z)
    (marker_timestamps : list Z) : option Z :=
  foldl (λ shown marker_timestamp,
           if bool_decide (marker_timestamp ≤ detection_timestamp)
           then Some marker_timestamp else shown)
        None marker_timestamps.

(** [sorted(df_markers["timestamp"].unique())]: the order in which
    [unique] lists the values is lost in the sort. *)
Definition marker_timestamps (df_markers : list Marker.row) : list Z :=
  merge_sort Z.le (remove_dups (Marker.timestamp <$> df_markers)).

Definition get_marker_coordinates_by_timestamp (detection_timestamp : Z)
    (df_markers : list Marker.row) : option (list point) :=
  match timestamp_to_show detection_timestamp (marker_timestamps df_markers) with
  | None => None
  | Some shown =>
      let dfsel := filter (λ r, Marker.timestamp r = shown) df_markers in
      Some ((λ r, (Marker.x r, Marker.y r)) <$> dfsel)
  end.

(** ** The spatial filter and the orchestrator *)

(** A fitted transformer: the method [transform_coordinates]. *)
Record Transformer : Type := {
  transform_coordinates : Z → Z → point;
}.

(** One row of the table of manual annotations. *)
Record ManualRow : Type := {
  waggle_index : Z;
  waggle_start_frames : Z;
  waggle_start_positions_x : Z;
  waggle_start_positions_y : Z;
  thorax_positions_x : Z;
  thorax_positions_y : Z;
}.

(** The parsed command line. *)
Record MyArgs : Type := {
  time_tolerance : Z;
  coordinate_tolerance : Z;
  fix_padding_flag : bool;
  undo_rotation : bool;
}.

(** What [main] has in hand for one cut video once the files are read. *)
Record VideoJob : Type := {
  original_video_name : string;
  timestamp : Z;
  video_fps : Z;
  original_video : Video;
  cut_video : Video;
  all_candidates : list Candidate;
  csv_df : list Label.row;
  manually_annotated_rows : list ManualRow;
}.

(** One entry of [results[original_video_name]]. *)
Record MatchRecord : Type := {
  manual_annotation : ManualRow;
  candidates : list Candidate;
}.

Section Orchestrator.

(** The constructor of the class imported from [coordinate_transformer],
    which is not part of the sources: it is given the source markers and
    the destination markers as the lookup returned them. *)
Variable CoordinateTransformer :
  option (list point) → option (list point) → result Transformer.

Definition is_matching_coordinates
    (automatically_annotated_data : Candidate)
    (manually_annotated_data : ManualRow)
    (df_markers_hd df_markers_wdd : list Marker.row)
    (coordinate_tolerance : Z)
    (fix_padding_flag undo_rotation : bool) : result bool :=
  let wdd_markers :=
    get_marker_coordinates_by_timestamp
      (timestamp_begin automatically_annotated_data) df_markers_wdd in
  let hd_markers :=
    get_marker_coordinates_by_timestamp
      (timestamp_begin automatically_annotated_data) df_markers_hd in
  converter ← CoordinateTransformer hd_markers wdd_markers;
  let x_hd := waggle_start_positions_x manually_annotated_data in
  let y_hd := waggle_start_positions_y manually_annotated_data in
  let '(x_hd, y_hd) :=
    if undo_rotation then unrotate (x_hd, y_hd) else (x_hd, y_hd) in
  let '(x_wdd, y_wdd) := transform_coordinates converter x_hd y_hd in
  let '(x, y) := roi_center automatically_annotated_data in
  let '(x, y) := if fix_padding_flag then fix_padding_error (x, y) else (x, y) in
  Ok (is_adjacent (x_wdd, y_wdd) (x, y) coordinate_tolerance).

Variable args : MyArgs.
Variables df_markers_hd df_markers_wdd : list Marker.row.

(** The comprehension that builds [candidates_after_coordinate_check]:
    [undo_rotation] is not among the arguments of the call, so the
    parameter keeps its default [False]. *)
Fixpoint coordinate_check (manually_annotated_row : ManualRow)
    (candidates : list Candidate) : result (list Candidate) :=
  match candidates with
  | [] => Ok []
  | candidate :: rest =>
      is_matching_coordinates candidate manually_annotated_row
        df_markers_hd df_markers_wdd (coordinate_tolerance args)
        (fix_padding_flag args) false ≫= λ matching : bool,
      kept ← coordinate_check manually_annotated_row rest;
      Ok (if matching then candidate :: kept else kept)
  end.

(** The body of the loop over the waggle runs of one video: [None] is a
    [continue], [Some] the record that is appended. *)
Definition match_waggle_run (job : VideoJob)
    (manually_annotated_row : ManualRow) : result (option MatchRecord) :=
  match get_first_matching_frame_index (original_video job) (cut_video job) with
  | Err _ => Ok None
  | Ok frame_offset =>
      candidates_after_timestamp_check ←
        filtered_by_timestamp (all_candidates job) (timestamp job)
          (time_tolerance args)
          (frame_offset + waggle_start_frames manually_annotated_row)
          (video_fps job);
      if bool_decide (length candidates_after_timestamp_check = 0%nat)
      then Ok None
      else
        candidates_after_tagged_waggle_check ←
          tagged_waggle_check (csv_df job) candidates_after_timestamp_check;
        candidates_after_coordinate_check ←
          coordinate_check manually_annotated_row
            candidates_after_tagged_waggle_check;
        Ok (Some {| manual_annotation := manually_annotated_row;
                    candidates := candidates_after_coordinate_check |})
  end.

(** The loop over the waggle runs, with the list built so far. *)
Fixpoint match_waggle_runs (job : VideoJob) (rows : list ManualRow)
    (matches : list MatchRecord) : result (list MatchRecord) :=
  match rows with
  | [] => Ok matches
  | manually_annotated_row :: rest =>
      outcome ← match_waggle_run job manually_annotated_row;
      match_waggle_runs job rest
        (match outcome with
         | Some record => matches ++ [record]
         | None => matches
         end)
  end.

(** The loop over the cut videos: [results[original_video_name]] starts
    empty and ends as the list the inner loop built. *)
Fixpoint match_videos (jobs : list VideoJob)
    (results : gmap string (list MatchRecord))
  : result (gmap string (list MatchRecord)) :=
  match jobs with
  | [] => Ok results
  | job :: rest =>
      matches ← match_waggle_runs job (manually_annotated_rows job) [];
      match_videos rest (<[original_video_name job := matches]> results)
  end.

(** [main], from the point where the inputs are loaded to the dictionary
    that is written out. *)
Definition main (jobs : list VideoJob)
  : result (gmap string (list MatchRecord)) :=
  match_videos jobs ∅.

End Orchestrator.

(** ** The Coordinate Transformer of the specification *)

Definition cross (o a b : point) : Z :=
  (a.1 - o.1) * (b.2 - o.2) - (a.2 - o.2) * (b.1 - o.1).

(** All points on one line (or on one spot). *)
Definition collinear (markers : list point) : bool :=
  match markers with
  | [] => true
  | o :: others =>
      forallb (λ a, forallb (λ b, bool_decide (cross o a b = 0)) others) others
  end.

(** Modelled from the spec: the construction contract of the Coordinate
    Transformer, whose module [coordinate_transformer] is not among the
    sources.  Fewer than three pairs fail with [InsufficientMarkers] (a
    lookup that found no marker set supplies none), lists of different
    length with [MarkerCountMismatch], collinear or coincident markers
    with [DegenerateMarkers]; otherwise the transformer applies the map
    [fit] computes from the two lists. *)
Definition spec_CoordinateTransformer
    (fit : list point → list point → Z → Z → point)
    (src_markers dst_markers : option (list point)) : result Transformer :=
  match src_markers, dst_markers with
  | Some src, Some dst =>
      if bool_decide (length src < 3 ∨ length dst < 3)%nat
      then Err InsufficientMarkers
      else if bool_decide (length src ≠ length dst)
      then Err MarkerCountMismatch
      else if collinear src || collinear dst
      then Err DegenerateMarkers
      else Ok {| transform_coordinates := fit src dst |}
  | _, _ => Err InsufficientMarkers
  end.

(** The fit between two marker systems that coincide: every marker is
    mapped to itself by the identity, which is then the least-squares
    solution. *)
Definition coincident_fit (src dst : list point) (x y : Z) : point := (x, y).

(** ** Variations of the inputs *)

(** The same command line with the [--undo_rotation] switch set to [b]. *)
Definition with_undo_rotation (b : bool) (args : MyArgs) : MyArgs := {|
  time_tolerance := time_tolerance args;
  coordinate_tolerance := coordinate_tolerance args;
  fix_padding_flag := fix_padding_flag args;
  undo_rotation := b;
|}.

(** The same manual annotation with its start position replaced. *)
Definition with_start_position (p : point) (row : ManualRow) : ManualRow := {|
  waggle_index := waggle_index row;
  waggle_start_frames := waggle_start_frames row;
  waggle_start_positions_x := p.1;
  waggle_start_positions_y := p.2;
  thorax_positions_x := thorax_positions_x row;
  thorax_positions_y := thorax_positions_y row;
|}.

(** The rows of the label table that carry the identifier of a candidate:
    the selection [csv_df.loc[csv_df["waggle_id"] == candidate["waggle_id"]]]. *)
Definition csv_rows_of (csv_df : list Label.row) (c : Candidate)
  : list Label.row :=
  filter (λ r, Label.waggle_id r = waggle_id c) csv_df.

(** ** A small recording, for closed examples *)

Module Sample.

(** 2024-09-04T12:29:36.145810, the start of the video named in [main]. *)
Definition T0 : Z := 63861049776145810.

Definition marker_set (t : Z) (points : list point) : list Marker.row :=
  (λ p, {| Marker.timestamp := t; Marker.x := p.1; Marker.y := p.2 |})
    <$> points.

(** Three markers seen at the same pixels by both cameras, an hour before
    the video starts. *)
Definition three_markers : list Marker.row :=
  marker_set (T0 - 3600 * us_per_second) [(0, 0); (1000, 0); (0, 1000)].

(** Only two markers. *)
Definition two_markers : list Marker.row :=
  marker_set (T0 - 3600 * us_per_second) [(0, 0); (1000, 0)].

(** Markers first recorded an hour after the video starts. *)
Definition late_markers : list Marker.row :=
  marker_set (T0 + 3600 * us_per_second) [(0, 0); (1000, 0); (0, 1000)].

(** Marker rows in no particular order: two sets of one point and one
    set of two points. *)
Definition mixed_markers : list Marker.row :=
  [ {| Marker.timestamp := 9; Marker.x := 1; Marker.y := 2 |};
    {| Marker.timestamp := 5; Marker.x := 3; Marker.y := 4 |};
    {| Marker.timestamp := 1; Marker.x := 5; Marker.y := 6 |};
    {| Marker.timestamp := 5; Marker.x := 7; Marker.y := 8 |} ].

(** A detection ten seconds into the video, at the un-rotated place of
    the manual annotation below. *)
Definition detection : Candidate := {|
  waggle_id := "w1";
  timestamp_begin := T0 + 10 * us_per_second;
  roi_center := (200, 4508);
|}.

(** A detection away from every annotated waggle run. *)
Definition stray_detection : Candidate := {|
  waggle_id := "w2";
  timestamp_begin := T0 + 99 * us_per_second;
  roi_center := (0, 0);
|}.

Definition tagged_waggle (id : string) : Label.row := {|
  Label.waggle_id := id;
  Label.category_label := Some "tagged";
  Label.corrected_category_label := None;
  Label.dance_type := Some "waggle";
  Label.corrected_dance_type := None;
|}.

Definition annotation : ManualRow := {|
  waggle_index := 0;
  waggle_start_frames := 100;
  waggle_start_positions_x := 100;
  waggle_start_positions_y := 200;
  thorax_positions_x := 110;
  thorax_positions_y := 210;
|}.

(** The cut video starts at frame 50 of the recording. *)
Definition recording : Video := Some (replicate 50 [0] ++ [[7]; [8]]).
Definition cut : Video := Some [[7]; [8]].

Definition job (name : string) (csv_df : list Label.row) : VideoJob := {|
  original_video_name := name;
  timestamp := T0;
  video_fps := HD_CAM_FPS;
  original_video := recording;
  cut_video := cut;
  all_candidates := [detection; stray_detection];
  csv_df := csv_df;
  manually_annotated_rows := [annotation];
|}.

(** The same video when the cut file cannot be opened. *)
Definition unopened_job (name : string) (csv_df : list Label.row) : VideoJob := {|
  original_video_name := name;
  timestamp := T0;
  video_fps := HD_CAM_FPS;
  original_video := recording;
  cut_video := None;
  all_candidates := [detection; stray_detection];
  csv_df := csv_df;
  manually_annotated_rows := [annotation];
|}.

Definition args : MyArgs := {|
  time_tolerance := 500000;
  coordinate_tolerance := 100;
  fix_padding_flag := false;
  undo_rotation := true;
|}.

End Sample.

(** ** Frame rate of a video *)

(** [capture.get(cv2.CAP_PROP_FPS)] is a float.  [fps > 0] is false for a
    NaN; [round] of a float gives the nearest integer, halves to even, and
    raises [OverflowError] on an infinity. *)
Definition get_video_fps (fps : spec_float) : result Z :=
  match fps with
  | S754_finite false m e => Ok (round_half_even_magnitude m e)
  | S754_infinity false => Err OverflowError
  | _ => Err ValueError
  end.

(** The frame rate [main] settles on: that of the metadata when the
    original video exists and [get_video_fps] returns, [HD_CAM_FPS] when
    the file is missing or any exception is raised. *)
Definition main_video_fps (original_video_exists : bool) (fps : spec_float)
  : Z :=
  if original_video_exists then
    match get_video_fps fps with
    | Ok video_fps => video_fps
    | Err _ => HD_CAM_FPS
    end
  else HD_CAM_FPS.

(** ** The name of the original video *)

Module Text.

(** [s.endswith(suffix)]. *)
Definition endswith (s suffix : string) : bool :=
  bool_decide (String.length suffix ≤ String.length s)%nat
  && bool_decide
       (String.substring (String.length s - String.length suffix)
          (String.length suffix) s = suffix).

(** [s.replace(old, new)] for a non-empty [old], from left to right
    without overlap: [skip] counts the characters of a replaced occurrence
    that are still to be passed over. *)
Fixpoint replace_from (old new : string) (skip : nat) (s : string) : string :=
  match s with
  | EmptyString => EmptyString
  | String c s' =>
      match skip with
      | S skip' => replace_from old new skip' s'
      | O =>
          if String.prefix old s
          then new +:+ replace_from old new (String.length old - 1) s'
          else String c (replace_from old new 0 s')
      end
  end.

Definition replace (old new s : string) : string := replace_from old new 0 s.

(** [s.partition(sep)[0]] for a non-empty [sep]: what comes before the
    first occurrence of [sep], or all of [s] when there is none. *)
Fixpoint partition_head (sep s : string) : string :=
  match s with
  | EmptyString => EmptyString
  | String c s' =>
      if String.prefix sep s then EmptyString
      else String c (partition_head sep s')
  end.

End Text.

Definition underscore : ascii := "_"%char.

(** The name under which [main] files the results of a cut video, from
    the last component [name] of its path and the suffix [suffix] of that
    component; [None] is the [IndexError] of [video_filename_parts[1]]. *)
Definition original_video_name_of (name suffix : string) : option string :=
  let video_filename_parts := Str.split underscore name in
  match video_filename_parts with
  | part0 :: part1 :: _ =>
      Some (part0 +:+ "_" +:+ part1
            +:+ (if Text.endswith part1 "Z" then "" else "Z")
            +:+ suffix)
  | _ => None
  end.

(** The text that [main] hands to [datetime.fromisoformat]. *)
Definition timestampstr_of (original_video_name : string) : string :=
  let timestampstr :=
    Text.partition_head "--" (Text.replace "cam-1_" "" original_video_name) in
  truncate_higher_precision_timestamp timestampstr.

(** * Properties *)

(** A tactic for the error monad: unfold the bind and split on results. *)
Ltac unfold_bind :=
  unfold mbind, result_bind, mret, result_ret in *.

(** ** Properties of the timestamp normalizer *)

Section TruncateTimestamp.

Lemma split_length sep s : length (Str.split sep s) = S (Str.count sep s).
Proof.
  induction s as [|c s IH]; simpl; [done|].
  destruct (Ascii.eqb c sep); simpl; [by rewrite IH|].
  destruct (Str.split sep s) as [|h t]; simpl in *; lia.
Qed.

Lemma count_app sep s1 s2 :
  Str.count sep (s1 +:+ s2) = (Str.count sep s1 + Str.count sep s2)%nat.
Proof. induction s1 as [|c s1 IH]; simpl; [done|]. rewrite IH. lia. Qed.

Lemma split_sections_clean sep s x :
  x ∈ Str.split sep s → Str.count sep x = 0%nat.
Proof.
  revert x. induction s as [|c s IH]; simpl; intros x Hx.
  - apply list_elem_of_singleton in Hx. by subst.
  - destruct (Ascii.eqb c sep) eqn:Hc.
    + apply elem_of_cons in Hx as [->|Hx]; [done|by apply IH].
    + destruct (Str.split sep s) as [|h t].
      * apply list_elem_of_singleton in Hx. subst. simpl. by rewrite Hc.
      * apply elem_of_cons in Hx as [->|Hx].
        -- simpl. rewrite Hc. apply IH. left.
        -- apply IH. by right.
Qed.

Lemma section_at_clean sep s i :
  (i < length (Str.split sep s))%nat →
  Str.count sep (section_at (Str.split sep s) i) = 0%nat.
Proof.
  intros Hi. apply split_sections_clean with (s := s).
  unfold section_at. apply list_elem_of_In, nth_In. exact Hi.
Qed.

Lemma truncated_count s :
  (2 <= Str.count dot s)%nat →
  Str.count dot (truncate_higher_precision_timestamp s) = 1%nat.
Proof.
  intros H2. unfold truncate_higher_precision_timestamp.
  destruct (Nat.leb_spec 2 (Str.count dot s)) as [_|?]; [|lia].
  rewrite !count_app, !section_at_clean by (rewrite split_length; lia).
  reflexivity.
Qed.

Lemma truncate_unchanged s :
  (Str.count dot s <= 1)%nat → truncate_higher_precision_timestamp s = s.
Proof.
  intros H1. unfold truncate_higher_precision_timestamp.
  destruct (Nat.leb_spec 2 (Str.count dot s)) as [?|_]; [lia|done].
Qed.

(** C10: the normalizer is idempotent, its output has at most one '.',
    and a string with zero or one '.' is returned unchanged. *)
Theorem truncate_idempotent_one_section (s : string) :
  truncate_higher_precision_timestamp (truncate_higher_precision_timestamp s)
    = truncate_higher_precision_timestamp s
  ∧ (Str.count dot (truncate_higher_precision_timestamp s) <= 1)%nat
  ∧ ((Str.count dot s <= 1)%nat → truncate_higher_precision_timestamp s = s).
Proof.
  assert (Hc : (Str.count dot (truncate_higher_precision_timestamp s) <= 1)%nat).
  { destruct (Nat.le_gt_cases 2 (Str.count dot s)) as [H2|H1].
    - rewrite truncated_count by done. lia.
    - rewrite truncate_unchanged by lia. lia. }
  split_and!; [by apply truncate_unchanged|done|apply truncate_unchanged].
Qed.

Lemma truncate_idempotent_one_section_witness :
  (Str.count dot "20240904T122936.14581Z" <= 1)%nat
  ∧ truncate_higher_precision_timestamp "20240904T122936.14581Z"
    = "20240904T122936.14581Z".
Proof.
  split; [vm_compute; lia|].
  apply (truncate_idempotent_one_section "20240904T122936.14581Z").
  vm_compute; lia.
Defined.

(** The file name quoted in [main]: the second fractional section goes. *)
Example truncate_video_name :
  truncate_higher_precision_timestamp "20240904T122936.14581.115Z"
  = "20240904T122936.14581Z".
Proof. reflexivity. Qed.

End TruncateTimestamp.

(** ** Adjacency and rotation *)

Section Geometry.

Lemma is_adjacent_true x1 y1 x2 y2 tol :
  is_adjacent (x1, y1) (x2, y2) tol = true
  ↔ Z.abs (x1 - x2) ≤ tol ∧ Z.abs (y1 - y2) ≤ tol.
Proof.
  unfold is_adjacent.
  rewrite andb_true_iff, !bool_decide_eq_true. reflexivity.
Qed.

(** C3: adjacency is the per-axis comparison; a difference of exactly
    (tol, tol) is adjacent, a difference of (tol + 1, 0) is not. *)
Theorem is_adjacent_per_axis (x1 y1 x2 y2 tol : Z) :
  (is_adjacent (x1, y1) (x2, y2) tol = true
   ↔ Z.abs (x1 - x2) ≤ tol ∧ Z.abs (y1 - y2) ≤ tol)
  ∧ (Z.abs (x1 - x2) = tol → Z.abs (y1 - y2) = tol →
     is_adjacent (x1, y1) (x2, y2) tol = true)
  ∧ (Z.abs (x1 - x2) = tol + 1 → y1 = y2 →
     is_adjacent (x1, y1) (x2, y2) tol = false).
Proof.
  split_and!.
  - apply is_adjacent_true.
  - intros Hx Hy. apply is_adjacent_true. lia.
  - intros Hx Hy. apply not_true_is_false.
    rewrite is_adjacent_true. lia.
Qed.

Lemma is_adjacent_per_axis_witness :
  is_adjacent (600, 600) (500, 500) 100 = true
  ∧ is_adjacent (601, 500) (500, 500) 100 = false.
Proof.
  split.
  - destruct (is_adjacent_per_axis 600 600 500 500 100) as (_ & H & _).
    apply H; reflexivity.
  - destruct (is_adjacent_per_axis 601 500 500 500 100) as (_ & _ & H).
    apply H; reflexivity.
Defined.

Lemma unrotate_twice x y :
  unrotate (unrotate (x, y)) = (FRAME_HEIGHT - x, FRAME_HEIGHT - y).
Proof. reflexivity. Qed.

(** C8: un-rotating twice does not give the point back, and the forward
    rotation undoes one un-rotation. *)
Theorem unrotate_not_involutive_forward_inverse :
  (∃ p : point, unrotate (unrotate p) ≠ p)
  ∧ ∀ x y : Z, forward_rotation (unrotate (x, y)) = (x, y).
Proof.
  split.
  - exists (0, 0). rewrite unrotate_twice. discriminate.
  - intros x y. unfold forward_rotation, unrotate, FRAME_HEIGHT. simpl.
    f_equal. lia.
Qed.

(** The centre of the square of side [FRAME_HEIGHT] is the one point that
    two un-rotations leave in place. *)
Lemma unrotate_twice_fixed x y :
  unrotate (unrotate (x, y)) = (x, y) ↔ x = 2304 ∧ y = 2304.
Proof.
  rewrite unrotate_twice. unfold FRAME_HEIGHT. simpl. split.
  - intros [= Hx Hy]. lia.
  - intros [-> ->]. reflexivity.
Qed.

End Geometry.

(** ** The label filter *)

Section LabelFilter.

Lemma original_or_corrected_override original corrected expected :
  original_or_corrected (Some original) corrected expected
  = Ok (override_rule original corrected expected).
Proof.
  unfold original_or_corrected, override_rule. simpl.
  destruct corrected as [c|]; simpl.
  - by rewrite andb_false_r.
  - by destruct (bool_decide (original = expected)).
Qed.

(** A missing original cannot be tested for truth, whatever the
    correction says. *)
Lemma original_or_corrected_missing corrected expected :
  original_or_corrected None corrected expected = Err TypeError.
Proof. reflexivity. Qed.

Lemma is_tagged_override l :
  is_tagged (csv_row_of l)
  = Ok (override_rule (original_category l) (corrected_category l) "tagged").
Proof. apply original_or_corrected_override. Qed.

Lemma is_waggle_override l :
  is_waggle (csv_row_of l)
  = Ok (override_rule (original_dance_type l) (corrected_dance_type_of l) "waggle").
Proof. apply original_or_corrected_override. Qed.

Lemma tagged_and_waggle_keeps l : tagged_and_waggle (csv_row_of l) = Ok (keeps l).
Proof.
  unfold tagged_and_waggle, keeps. rewrite is_tagged_override. unfold_bind.
  destruct (override_rule (original_category l) _ _); simpl; [|done].
  apply is_waggle_override.
Qed.

Lemma filter_csv_rows (id : string) (labels : list LabelRecord) :
  filter (λ r, Label.waggle_id r = id) (csv_row_of <$> labels)
  = csv_row_of <$> filter (λ l, label_id l = id) labels.
Proof.
  induction labels as [|l labels IH]; [done|].
  rewrite fmap_cons, !filter_cons. simpl.
  destruct (decide (label_id l = id)); by rewrite IH.
Qed.

Lemma tagged_waggle_check_unique (labels : list LabelRecord)
    (cands : list Candidate) :
  (∀ c, c ∈ cands → (length (records_of labels c) ≤ 1)%nat) →
  ∃ kept, tagged_waggle_check (csv_row_of <$> labels) cands = Ok kept
    ∧ ∀ c, c ∈ kept ↔
        c ∈ cands ∧ ∃ l, l ∈ labels ∧ label_id l = waggle_id c ∧ keeps l = true.
Proof.
  induction cands as [|c0 rest IH]; intros Huniq.
  - exists []. split; [done|]. intros c. rewrite elem_of_nil. tauto.
  - destruct IH as (kept & Hrest & Hkept).
    { intros c Hc. apply Huniq. by right. }
    specialize (Huniq c0 (list_elem_of_here _ _)).
    simpl. rewrite filter_csv_rows, length_fmap. fold (records_of labels c0).
    rewrite bool_decide_eq_true_2 by done.
    assert (Hin : ∀ l, l ∈ records_of labels c0
                       ↔ label_id l = waggle_id c0 ∧ l ∈ labels)
      by (intros l; unfold records_of; rewrite list_elem_of_filter; done).
    destruct (records_of labels c0) as [|l0 [|l1 more]] eqn:Hrec;
      simpl in Huniq; [| |lia].
    + simpl. exists kept. split; [done|]. intros c.
      rewrite Hkept, elem_of_cons. split; [tauto|].
      intros [[->|Hc] Hl]; [|tauto].
      destruct Hl as (l & Hl & Hid & _).
      assert (Hnil : l ∈ []) by (apply Hin; done).
      by apply elem_of_nil in Hnil.
    + simpl. rewrite tagged_and_waggle_keeps, Hrest. unfold_bind.
      assert (Hl0 : label_id l0 = waggle_id c0 ∧ l0 ∈ labels)
        by (apply Hin; left).
      destruct (keeps l0) eqn:Hk0.
      * exists (c0 :: kept). split; [done|]. intros c.
        rewrite !elem_of_cons, Hkept. split; [|tauto].
        intros [->|?]; [|tauto]. split; [by left|]. exists l0. tauto.
      * rewrite is_tagged_override, is_waggle_override.
        exists kept. split; [done|]. intros c.
        rewrite Hkept, elem_of_cons. split; [tauto|].
        intros [[->|Hc] Hl]; [|tauto].
        destruct Hl as (l & Hl & Hid & Hk).
        assert (Hone : l ∈ [l0]) by (apply Hin; done).
        apply list_elem_of_singleton in Hone. congruence.
Qed.

(** C2: the label filter keeps a candidate exactly when its record is
    tagged and waggle-typed under the override rule, applied to each
    attribute; the three cases of the tag attribute come out as listed. *)
Theorem label_filter_override_rule :
  (∀ l : LabelRecord,
     is_tagged (csv_row_of l)
     = Ok (override_rule (original_category l) (corrected_category l) "tagged")
     ∧ is_waggle (csv_row_of l)
       = Ok (override_rule (original_dance_type l)
               (corrected_dance_type_of l) "waggle")
     ∧ tagged_and_waggle (csv_row_of l) = Ok (keeps l))
  ∧ (∀ (labels : list LabelRecord) (cands : list Candidate),
       (∀ c, c ∈ cands → (length (records_of labels c) ≤ 1)%nat) →
       ∃ kept, tagged_waggle_check (csv_row_of <$> labels) cands = Ok kept
         ∧ ∀ c, c ∈ kept ↔
             c ∈ cands
             ∧ ∃ l, l ∈ labels ∧ label_id l = waggle_id c ∧ keeps l = true)
  ∧ override_rule "tagged" None "tagged" = true
  ∧ override_rule "untagged" (Some "tagged") "tagged" = true
  ∧ override_rule "tagged" (Some "untagged") "tagged" = false.
Proof.
  split_and!; try reflexivity.
  - intros l. split_and!.
    + apply is_tagged_override.
    + apply is_waggle_override.
    + apply tagged_and_waggle_keeps.
  - apply tagged_waggle_check_unique.
Qed.

End LabelFilter.

(** ** Frame synchronisation *)

Section FrameSync.

(** What the scan returns from position [k] on: a match is the first
    occurrence of the target, no match means there is none. *)
Lemma scan_frames_first target frames k :
  match scan_frames target frames k with
  | (true, idx) =>
      ∃ i : nat, idx = k + Z.of_nat i ∧ frames !! i = Some target
        ∧ ∀ j : nat, (j < i)%nat → frames !! j ≠ Some target
  | (false, _) => target ∉ frames
  end.
Proof.
  revert k. induction frames as [|frame frames IH]; intros k; simpl.
  - apply not_elem_of_nil.
  - case_bool_decide as Heq.
    + exists 0%nat. subst. split_and!; [lia|done|lia].
    + specialize (IH (k + 1)).
      destruct (scan_frames target frames (k + 1)) as [[] idx].
      * destruct IH as (i & -> & Hi & Hmin). exists (S i).
        split_and!; [lia|done|].
        intros [|j] Hj; simpl; [congruence|]. apply Hmin. lia.
      * rewrite elem_of_cons. intros [->|?]; tauto.
Qed.

(** C4: when the first frame of the cut video occurs in the reference,
    the synchroniser returns the least index at which it occurs; when it
    does not occur, the synchroniser fails instead of returning an index. *)
Theorem frame_sync_first_match (reference cut : list Frame) (target : Frame) :
  head cut = Some target →
  (target ∈ reference →
   ∃ i : nat,
     get_first_matching_frame_index (Some reference) (Some cut)
     = Ok (Z.of_nat i)
     ∧ reference !! i = Some target
     ∧ ∀ j : nat, (j < i)%nat → reference !! j ≠ Some target)
  ∧ (target ∉ reference →
     get_first_matching_frame_index (Some reference) (Some cut)
     = Err UnableToFindMatchingFrame).
Proof.
  intros Hhead. destruct cut as [|first cut]; simplify_eq/=.
  unfold get_first_matching_frame_index. simpl. unfold_bind.
  pose proof (scan_frames_first target reference 0) as Hscan.
  destruct (scan_frames target reference 0) as [[] idx]; split.
  - intros _. destruct Hscan as (i & -> & Hi & Hmin).
    exists i. by rewrite Z.add_0_l.
  - intros Hnot. destruct Hscan as (i & _ & Hi & _).
    destruct Hnot. by eapply list_elem_of_lookup_2.
  - intros Hin. by destruct Hscan.
  - done.
Qed.

Lemma frame_sync_first_match_witness :
  ∃ i : nat,
    get_first_matching_frame_index
      (Some [[1; 2]; [3; 4]; [5; 6]; [3; 4]]) (Some [[3; 4]; [5; 6]])
    = Ok (Z.of_nat i)
    ∧ [[1; 2]; [3; 4]; [5; 6]; [3; 4]] !! i = Some [3; 4]
    ∧ ∀ j : nat, (j < i)%nat →
        [[1; 2]; [3; 4]; [5; 6]; [3; 4]] !! j ≠ Some [3; 4].
Proof.
  apply (frame_sync_first_match
           [[1; 2]; [3; 4]; [5; 6]; [3; 4]] [[3; 4]; [5; 6]] [3; 4]).
  - reflexivity.
  - apply list_elem_of_In. simpl. tauto.
Defined.

Example frame_sync_index :
  get_first_matching_frame_index
    (Some [[1; 2]; [3; 4]; [5; 6]; [3; 4]]) (Some [[3; 4]; [5; 6]]) = Ok 1.
Proof. reflexivity. Qed.

(** The failures that come before the scan. *)
Lemma frame_sync_unavailable original_video cut_video :
  (cut_video = None → get_first_matching_frame_index original_video cut_video
                      = Err UnableToOpen)
  ∧ (cut_video = Some [] → get_first_matching_frame_index original_video cut_video
                           = Err NoFrameIn)
  ∧ (original_video = None → ∃ e,
       get_first_matching_frame_index original_video cut_video = Err e).
Proof.
  split_and!; intros ->; try reflexivity.
  destruct cut_video as [[|frame cut]|]; simpl; eauto.
Qed.

End FrameSync.

(** ** Marker lookup *)

Section MarkerLookup.

Lemma timestamp_to_show_sorted t (l : list Z) (shown0 : option Z) :
  StronglySorted Z.le l →
  (∀ a, shown0 = Some a → a ≤ t ∧ Forall (Z.le a) l) →
  match foldl (λ shown m, if bool_decide (m ≤ t) then Some m else shown)
          shown0 l with
  | Some m => m ≤ t ∧ (m ∈ l ∨ shown0 = Some m)
              ∧ ∀ m', m' ∈ l → m' ≤ t → m' ≤ m
  | None => shown0 = None ∧ ∀ m', m' ∈ l → t < m'
  end.
Proof.
  revert shown0. induction l as [|x l IH]; intros shown0 Hsort Hinv; simpl.
  - destruct shown0 as [a|].
    + split_and!; [by apply Hinv|by right|]. intros m' Hm'.
      by apply elem_of_nil in Hm'.
    + split; [done|]. intros m' Hm'. by apply elem_of_nil in Hm'.
  - apply StronglySorted_inv in Hsort as [Hsort Hx].
    case_bool_decide as Hxt.
    + specialize (IH (Some x) Hsort).
      destruct (foldl _ (Some x) l) as [m|].
      * destruct IH as (Hm & Hin & Hmax); [by intros a [= <-]|].
        assert (x ≤ m).
        { destruct Hin as [Hin|[= ->]]; [|lia].
          rewrite Forall_forall in Hx. by apply Hx. }
        split_and!; [done|destruct Hin as [?|[= ->]]; left; by constructor|].
        intros m' [->|Hm']%elem_of_cons ?; [done|by apply Hmax].
      * destruct IH as [[=] _]. by intros a [= <-].
    + specialize (IH shown0 Hsort).
      destruct (foldl _ shown0 l) as [m|].
      * destruct IH as (Hm & Hin & Hmax).
        { intros a Ha. destruct (Hinv a Ha) as [? Hall].
          split; [done|]. by apply Forall_cons_1 in Hall as [_ ?]. }
        split_and!; [done|destruct Hin; [left; by right|by right]|].
        intros m' [->|Hm']%elem_of_cons ?; [lia|by apply Hmax].
      * destruct IH as [-> Hall].
        { intros a Ha. destruct (Hinv a Ha) as [? Hall].
          split; [done|]. by apply Forall_cons_1 in Hall as [_ ?]. }
        split; [done|]. intros m' [->|Hm']%elem_of_cons; [lia|by apply Hall].
Qed.

Lemma elem_of_marker_timestamps m df :
  m ∈ marker_timestamps df ↔ ∃ r, r ∈ df ∧ Marker.timestamp r = m.
Proof.
  unfold marker_timestamps.
  rewrite merge_sort_Permutation, elem_of_remove_dups, list_elem_of_fmap.
  split; [intros (r & -> & Hr)|intros (r & Hr & <-)]; eauto.
Qed.

(** C6 (lookup): the lookup returns the rows of the latest timestamp not
    after the detection, as points in table order; it returns nothing
    exactly when every marker row is later than the detection. *)
Theorem marker_lookup_most_recent (t : Z) (df_markers : list Marker.row) :
  match get_marker_coordinates_by_timestamp t df_markers with
  | Some marker_coords =>
      ∃ shown,
        (∃ r, r ∈ df_markers ∧ Marker.timestamp r = shown)
        ∧ shown ≤ t
        ∧ (∀ r, r ∈ df_markers → Marker.timestamp r ≤ t →
             Marker.timestamp r ≤ shown)
        ∧ marker_coords
          = (λ r, (Marker.x r, Marker.y r))
              <$> filter (λ r, Marker.timestamp r = shown) df_markers
  | None => ∀ r, r ∈ df_markers → t < Marker.timestamp r
  end.
Proof.
  unfold get_marker_coordinates_by_timestamp, timestamp_to_show.
  pose proof (timestamp_to_show_sorted t (marker_timestamps df_markers) None)
    as Hshow.
  destruct (foldl _ None (marker_timestamps df_markers)) as [shown|].
  - destruct Hshow as (Hle & Hin & Hmax);
      [apply StronglySorted_merge_sort; apply _|done|].
    destruct Hin as [Hin|[=]]. exists shown. split_and!; [|done| |done].
    + by apply elem_of_marker_timestamps.
    + intros r Hr Hrt. apply Hmax; [|done].
      apply elem_of_marker_timestamps. eauto.
  - destruct Hshow as [_ Hall];
      [apply StronglySorted_merge_sort; apply _|done|].
    intros r Hr. apply Hall, elem_of_marker_timestamps. eauto.
Qed.

End MarkerLookup.

(** ** The temporal filter *)

Section TemporalFilter.


(** A failure to build the elapsed time leaves the filter as it is. *)
Lemma filtered_by_timestamp_elapsed_error cands T0 d start_frame fps e :
  time_elapsed start_frame fps = Err e →
  filtered_by_timestamp cands T0 d start_frame fps = Err e.
Proof. intros H. unfold filtered_by_timestamp. by rewrite H. Qed.

(** At the frame rate of the HD camera the elapsed time of the first
    5000 frames (a recording lasts five minutes, some 4500 frames) is the
    exact quotient rounded to the nearest microsecond. *)
Lemma time_elapsed_at_HD_CAM_FPS n :
  0 ≤ n < 5000 →
  time_elapsed n HD_CAM_FPS = Ok (nearest_microsecond n HD_CAM_FPS).
Proof.
  intros Hn.
  assert (Hall : forallb (elapsed_is_nearest HD_CAM_FPS) (seqZ 0 5000) = true)
    by (vm_compute; reflexivity).
  assert (Hin : In n (seqZ 0 5000))
    by (apply list_elem_of_In, elem_of_seqZ; lia).
  rewrite forallb_forall in Hall. specialize (Hall n Hin).
  unfold elapsed_is_nearest in Hall.
  destruct (time_elapsed n HD_CAM_FPS) as [e|x]; [|discriminate].
  apply bool_decide_eq_true in Hall. by subst.
Qed.



Example temporal_filter_scenario :
  let T0 := 63861049776145810 in
  let at_ t := {| waggle_id := "w"; timestamp_begin := t; roi_center := (0, 0) |} in
  filtered_by_timestamp
    [at_ (T0 + 9499999); at_ (T0 + 9500000); at_ (T0 + 10000000);
     at_ (T0 + 10500000); at_ (T0 + 10500001); at_ (T0 + 10600000)]
    T0 500000 (50 + 100) 15
  = Ok [at_ (T0 + 9500000); at_ (T0 + 10000000); at_ (T0 + 10500000)].
Proof. vm_compute. reflexivity. Qed.


End TemporalFilter.

(** ** The orchestrator *)

Section Run.

Variable CoordinateTransformer :
  option (list point) → option (list point) → result Transformer.
Variable args : MyArgs.
Variables df_markers_hd df_markers_wdd : list Marker.row.

Let run_one := match_waggle_run CoordinateTransformer args
                 df_markers_hd df_markers_wdd.
Let run_rows := match_waggle_runs CoordinateTransformer args
                  df_markers_hd df_markers_wdd.
Let run_videos := match_videos CoordinateTransformer args
                    df_markers_hd df_markers_wdd.

(** An exception in one waggle run leaves the loop over the runs. *)
Lemma match_waggle_runs_error job rows matches row e :
  row ∈ rows → run_one job row = Err e →
  ∃ e', run_rows job rows matches = Err e'.
Proof.
  intros Hin Herr. revert matches.
  induction rows as [|r0 rest IH]; intros matches; [by apply elem_of_nil in Hin|].
  unfold run_rows. simpl. fold (run_one job r0).
  destruct (run_one job r0) as [outcome|e0] eqn:H0; [|by eexists].
  apply elem_of_cons in Hin as [->|Hin]; [congruence|].
  unfold_bind. apply (IH Hin).
Qed.

(** An exception in one video leaves the loop over the videos. *)
Lemma match_videos_error jobs results job e :
  job ∈ jobs → run_rows job (manually_annotated_rows job) [] = Err e →
  ∃ e', run_videos jobs results = Err e'.
Proof.
  intros Hin Herr. revert results.
  induction jobs as [|j0 rest IH]; intros results; [by apply elem_of_nil in Hin|].
  unfold run_videos. simpl. fold (run_rows j0 (manually_annotated_rows j0) []).
  destruct (run_rows j0 _ []) as [matches|e0] eqn:H0; [|by eexists].
  apply elem_of_cons in Hin as [->|Hin]; [congruence|].
  unfold_bind. apply (IH Hin).
Qed.

(** While the frames cannot be synchronised, every waggle run of the
    video is passed over. *)
Lemma match_waggle_runs_unsynced job e rows matches :
  get_first_matching_frame_index (original_video job) (cut_video job) = Err e →
  run_rows job rows matches = Ok matches.
Proof.
  intros Hsync. induction rows as [|row rest IH]; [done|].
  unfold run_rows. simpl. unfold match_waggle_run. rewrite Hsync.
  exact IH.
Qed.

(** C5 (frame synchronisation): a failure of the frame synchroniser is
    caught where the waggle run is processed.  Nothing is recorded for
    that run, the loop goes on with the runs that remain, and the run over
    the videos goes on with the videos that remain. *)
Theorem frame_sync_failure_skips_event (job : VideoJob) (e : exn) :
  get_first_matching_frame_index (original_video job) (cut_video job) = Err e →
  (∀ row, match_waggle_run CoordinateTransformer args
            df_markers_hd df_markers_wdd job row = Ok None)
  ∧ (∀ row rest matches,
       match_waggle_runs CoordinateTransformer args
         df_markers_hd df_markers_wdd job (row :: rest) matches
       = match_waggle_runs CoordinateTransformer args
           df_markers_hd df_markers_wdd job rest matches)
  ∧ (∀ jobs results,
       match_videos CoordinateTransformer args
         df_markers_hd df_markers_wdd (job :: jobs) results
       = match_videos CoordinateTransformer args
           df_markers_hd df_markers_wdd jobs
           (<[original_video_name job := []]> results)).
Proof.
  intros Hsync. split_and!.
  - intros row. unfold match_waggle_run. by rewrite Hsync.
  - intros row rest matches. simpl. unfold match_waggle_run at 1.
    by rewrite Hsync.
  - intros jobs results. simpl.
    fold (run_rows job (manually_annotated_rows job) []).
    by rewrite (match_waggle_runs_unsynced job e).
Qed.

(** The spatial check always builds a transformer from what the two
    lookups returned, and a failure to build it is the failure of the
    check. *)
Lemma is_matching_coordinates_transformer_error c row tol fix_padding undo e :
  CoordinateTransformer
    (get_marker_coordinates_by_timestamp (timestamp_begin c) df_markers_hd)
    (get_marker_coordinates_by_timestamp (timestamp_begin c) df_markers_wdd)
  = Err e →
  is_matching_coordinates CoordinateTransformer c row
    df_markers_hd df_markers_wdd tol fix_padding undo = Err e.
Proof. intros H. unfold is_matching_coordinates. by rewrite H. Qed.

Lemma coordinate_check_error row cands c e :
  c ∈ cands →
  is_matching_coordinates CoordinateTransformer c row
    df_markers_hd df_markers_wdd (coordinate_tolerance args)
    (fix_padding_flag args) false = Err e →
  ∃ e', coordinate_check CoordinateTransformer args
          df_markers_hd df_markers_wdd row cands = Err e'.
Proof.
  intros Hin Herr. induction cands as [|c0 rest IH];
    [by apply elem_of_nil in Hin|].
  simpl.
  destruct (is_matching_coordinates _ c0 _ _ _ _ _ _) as [matching|e0] eqn:H0;
    [|by eexists].
  apply elem_of_cons in Hin as [->|Hin]; [congruence|].
  destruct (IH Hin) as [e' ->]. by eexists.
Qed.

(** Whatever the transformer is, once it cannot be built for a candidate
    that reached the spatial check, the run as a whole ends in an
    exception. *)
Lemma transformer_error_aborts_run jobs job row frame_offset timed labelled c e :
  job ∈ jobs → row ∈ manually_annotated_rows job →
  get_first_matching_frame_index (original_video job) (cut_video job)
  = Ok frame_offset →
  filtered_by_timestamp (all_candidates job) (timestamp job)
    (time_tolerance args) (frame_offset + waggle_start_frames row)
    (video_fps job) = Ok timed →
  tagged_waggle_check (csv_df job) timed = Ok labelled →
  c ∈ labelled →
  CoordinateTransformer
    (get_marker_coordinates_by_timestamp (timestamp_begin c) df_markers_hd)
    (get_marker_coordinates_by_timestamp (timestamp_begin c) df_markers_wdd)
  = Err e →
  ∃ e', main CoordinateTransformer args df_markers_hd df_markers_wdd jobs
        = Err e'.
Proof.
  intros Hjob Hrow Hsync Htimed Hlabelled Hc Hctor.
  destruct (coordinate_check_error row labelled c e Hc) as [e1 He1].
  { by apply is_matching_coordinates_transformer_error. }
  assert (Hrun : run_one job row = Err e1).
  { unfold run_one, match_waggle_run. rewrite Hsync, Htimed. unfold_bind.
    rewrite Hlabelled, He1. case_bool_decide as Hempty; [|done].
    destruct timed; [|done]. simpl in Hlabelled. injection Hlabelled as <-.
    by apply elem_of_nil in Hc. }
  destruct (match_waggle_runs_error job _ [] row e1 Hrow Hrun) as [e2 He2].
  apply (match_videos_error jobs ∅ job e2 Hjob He2).
Qed.

(** With the switch on, the start position is un-rotated and then
    transformed. *)
Lemma is_matching_coordinates_unrotates_first c row tol fix_padding :
  is_matching_coordinates CoordinateTransformer c row
    df_markers_hd df_markers_wdd tol fix_padding true
  = is_matching_coordinates CoordinateTransformer c
      (with_start_position
         (unrotate (waggle_start_positions_x row, waggle_start_positions_y row))
         row)
      df_markers_hd df_markers_wdd tol fix_padding false.
Proof. reflexivity. Qed.

End Run.

(** ** The uniqueness check on label records *)

Section UniqueLabels.

Lemma bind_no_assertion {A B} (m : result A) (k : A → result B) :
  m ≠ Err AssertionError →
  (∀ a, m = Ok a → k a ≠ Err AssertionError) →
  m ≫= k ≠ Err AssertionError.
Proof.
  intros Hm Hk. destruct m as [a|e]; unfold_bind; simpl; [by apply Hk|].
  intros [= ->]. by apply Hm.
Qed.

Lemma int_true_divide_no_assertion a b :
  int_true_divide a b ≠ Err AssertionError.
Proof.
  unfold int_true_divide.
  destruct (bool_decide (b = 0)); [discriminate|].
  destruct (bool_decide (a = 0)); [discriminate|].
  destruct (SFdiv _ _ _ _); discriminate.
Qed.

Lemma timedelta_of_seconds_no_assertion s :
  timedelta_of_seconds s ≠ Err AssertionError.
Proof.
  unfold timedelta_of_seconds. destruct s as [| | |sign m e]; try discriminate.
  destruct (modf_magnitude m e). case_bool_decide; discriminate.
Qed.

Lemma datetime_add_no_assertion dt td : datetime_add dt td ≠ Err AssertionError.
Proof. unfold datetime_add. case_bool_decide; discriminate. Qed.

Lemma filtered_by_timestamp_no_assertion cands T0 d start_frame fps :
  filtered_by_timestamp cands T0 d start_frame fps ≠ Err AssertionError.
Proof.
  unfold filtered_by_timestamp, time_elapsed.
  repeat (apply bind_no_assertion; intros;
          auto using int_true_divide_no_assertion,
            timedelta_of_seconds_no_assertion, datetime_add_no_assertion).
Qed.

Lemma filtered_by_timestamp_subset cands T0 d start_frame fps kept c :
  filtered_by_timestamp cands T0 d start_frame fps = Ok kept →
  c ∈ kept → c ∈ cands.
Proof.
  unfold filtered_by_timestamp. unfold_bind.
  destruct (time_elapsed _ _); [|done].
  repeat (match goal with |- context [datetime_add ?a ?b] =>
            destruct (datetime_add a b) end; [|done]).
  intros [= <-] Hin. by apply list_elem_of_filter in Hin as [_ ?].
Qed.

Lemma original_or_corrected_no_assertion original corrected expected :
  original_or_corrected original corrected expected ≠ Err AssertionError.
Proof.
  unfold original_or_corrected.
  destruct original as [o|], corrected as [c|]; simpl; try discriminate;
    destruct (bool_decide (o = expected)); discriminate.
Qed.

Lemma tagged_and_waggle_no_assertion row :
  tagged_and_waggle row ≠ Err AssertionError.
Proof.
  unfold tagged_and_waggle, is_tagged, is_waggle.
  apply bind_no_assertion; [apply original_or_corrected_no_assertion|].
  intros [] _; [apply original_or_corrected_no_assertion|discriminate].
Qed.

(** The assertion does not fail while every candidate has at most one
    label row. *)
Lemma tagged_waggle_check_no_assertion csv cands :
  (∀ c, c ∈ cands → (length (csv_rows_of csv c) ≤ 1)%nat) →
  tagged_waggle_check csv cands ≠ Err AssertionError.
Proof.
  induction cands as [|c0 rest IH]; intros Huniq; [discriminate|].
  assert (Hrest : tagged_waggle_check csv rest ≠ Err AssertionError).
  { apply IH. intros c Hc. apply Huniq. by right. }
  specialize (Huniq c0 (list_elem_of_here _ _)).
  simpl. fold (csv_rows_of csv c0).
  rewrite bool_decide_eq_true_2 by done.
  destruct (csv_rows_of csv c0) as [|row0 more]; [done|].
  apply bind_no_assertion; [apply tagged_and_waggle_no_assertion|].
  intros [] _.
  - apply bind_no_assertion; [done|discriminate].
  - unfold is_tagged, is_waggle.
    repeat (apply bind_no_assertion;
            [apply original_or_corrected_no_assertion|intros _ _]).
    done.
Qed.

(** The assertion fails, or something failed before it, once a candidate
    with two label rows is among those checked. *)
Lemma tagged_waggle_check_duplicate csv cands c :
  c ∈ cands → (2 ≤ length (csv_rows_of csv c))%nat →
  ∃ e, tagged_waggle_check csv cands = Err e.
Proof.
  intros Hin Hdup. induction cands as [|c0 rest IH];
    [by apply elem_of_nil in Hin|].
  simpl. fold (csv_rows_of csv c0). case_bool_decide as Hone; [|by eexists].
  apply elem_of_cons in Hin as [->|Hin]; [lia|].
  destruct (IH Hin) as [e He]. rewrite He.
  destruct (csv_rows_of csv c0) as [|row0 more]; [by eexists|].
  destruct (tagged_and_waggle row0) as [[]|e0]; unfold_bind; [by eexists| |by eexists].
  destruct (is_tagged row0); [|by eexists].
  destruct (is_waggle row0); by eexists.
Qed.

(** The first candidate with two label rows fails the assertion itself. *)
Lemma tagged_waggle_check_duplicate_first csv c rest :
  (2 ≤ length (csv_rows_of csv c))%nat →
  tagged_waggle_check csv (c :: rest) = Err AssertionError.
Proof.
  intros Hdup. simpl. fold (csv_rows_of csv c).
  rewrite bool_decide_eq_false_2 by lia. reflexivity.
Qed.

Variable CoordinateTransformer :
  option (list point) → option (list point) → result Transformer.
Variable args : MyArgs.
Variables df_markers_hd df_markers_wdd : list Marker.row.

Lemma coordinate_check_no_assertion row cands :
  (∀ src dst, CoordinateTransformer src dst ≠ Err AssertionError) →
  coordinate_check CoordinateTransformer args df_markers_hd df_markers_wdd
    row cands ≠ Err AssertionError.
Proof.
  intros Hctor. induction cands as [|c rest IH]; [discriminate|].
  simpl. apply bind_no_assertion.
  - unfold is_matching_coordinates. apply bind_no_assertion; [apply Hctor|].
    intros conv _. destruct (transform_coordinates conv _ _), (roi_center c).
    destruct (fix_padding_flag args); simpl; discriminate.
  - intros matching _. apply bind_no_assertion; [done|discriminate].
Qed.

Lemma match_waggle_run_no_assertion job row :
  (∀ src dst, CoordinateTransformer src dst ≠ Err AssertionError) →
  (∀ c, c ∈ all_candidates job →
        (length (csv_rows_of (csv_df job) c) ≤ 1)%nat) →
  match_waggle_run CoordinateTransformer args df_markers_hd df_markers_wdd
    job row ≠ Err AssertionError.
Proof.
  intros Hctor Huniq. unfold match_waggle_run.
  destruct (get_first_matching_frame_index _ _) as [frame_offset|]; [|done].
  apply bind_no_assertion; [apply filtered_by_timestamp_no_assertion|].
  intros kept Hkept. case_bool_decide; [done|].
  apply bind_no_assertion.
  - apply tagged_waggle_check_no_assertion. intros c Hc. apply Huniq.
    eapply filtered_by_timestamp_subset; done.
  - intros labelled _. apply bind_no_assertion; [|discriminate].
    by apply coordinate_check_no_assertion.
Qed.

Lemma match_waggle_runs_no_assertion job rows matches :
  (∀ src dst, CoordinateTransformer src dst ≠ Err AssertionError) →
  (∀ c, c ∈ all_candidates job →
        (length (csv_rows_of (csv_df job) c) ≤ 1)%nat) →
  match_waggle_runs CoordinateTransformer args df_markers_hd df_markers_wdd
    job rows matches ≠ Err AssertionError.
Proof.
  intros Hctor Huniq. revert matches.
  induction rows as [|row rest IH]; intros matches; [discriminate|].
  simpl. apply bind_no_assertion; [by apply match_waggle_run_no_assertion|].
  intros outcome _. apply IH.
Qed.

Lemma match_videos_no_assertion jobs results :
  (∀ src dst, CoordinateTransformer src dst ≠ Err AssertionError) →
  (∀ job c, job ∈ jobs → c ∈ all_candidates job →
            (length (csv_rows_of (csv_df job) c) ≤ 1)%nat) →
  match_videos CoordinateTransformer args df_markers_hd df_markers_wdd
    jobs results ≠ Err AssertionError.
Proof.
  intros Hctor Huniq. revert results.
  induction jobs as [|job rest IH]; intros results; [discriminate|].
  simpl. apply bind_no_assertion.
  - apply match_waggle_runs_no_assertion; [done|].
    intros c. apply Huniq. by left.
  - intros matches _. apply IH. intros j c Hj. apply Huniq. by right.
Qed.

(** C9 (reached candidates): when a candidate that passed the temporal
    filter of some waggle run has two or more label rows, the run as a
    whole ends in an exception; and while every candidate has at most one
    label row the assertion on the number of rows never fails. *)
Theorem duplicate_labels_abort_run :
  (∀ jobs job row frame_offset cands c,
     job ∈ jobs → row ∈ manually_annotated_rows job →
     get_first_matching_frame_index (original_video job) (cut_video job)
     = Ok frame_offset →
     filtered_by_timestamp (all_candidates job) (timestamp job)
       (time_tolerance args) (frame_offset + waggle_start_frames row)
       (video_fps job) = Ok cands →
     c ∈ cands →
     (2 ≤ length (csv_rows_of (csv_df job) c))%nat →
     ∃ e, main CoordinateTransformer args df_markers_hd df_markers_wdd jobs
          = Err e)
  ∧ ((∀ src dst, CoordinateTransformer src dst ≠ Err AssertionError) →
     ∀ jobs,
       (∀ job c, job ∈ jobs → c ∈ all_candidates job →
                 (length (csv_rows_of (csv_df job) c) ≤ 1)%nat) →
       main CoordinateTransformer args df_markers_hd df_markers_wdd jobs
       ≠ Err AssertionError).
Proof.
  split.
  - intros jobs job row frame_offset cands c Hjob Hrow Hsync Hkept Hc Hdup.
    destruct (tagged_waggle_check_duplicate (csv_df job) cands c Hc Hdup)
      as [e He].
    assert (Hrun : match_waggle_run CoordinateTransformer args
                     df_markers_hd df_markers_wdd job row = Err e).
    { unfold match_waggle_run. rewrite Hsync, Hkept. unfold_bind.
      rewrite bool_decide_eq_false_2, He; [done|].
      destruct cands; [by apply elem_of_nil in Hc|done]. }
    destruct (match_waggle_runs_error CoordinateTransformer args
                df_markers_hd df_markers_wdd job _ [] row e Hrow Hrun)
      as [e' He'].
    apply (match_videos_error CoordinateTransformer args
             df_markers_hd df_markers_wdd jobs ∅ job e' Hjob He').
  - intros Hctor jobs Huniq. by apply match_videos_no_assertion.
Qed.

End UniqueLabels.

(** ** Closed runs on the sample recording *)

Section SampleRuns.

Import Sample.

Lemma spec_CoordinateTransformer_no_assertion fit src dst :
  spec_CoordinateTransformer fit src dst ≠ Err AssertionError.
Proof.
  unfold spec_CoordinateTransformer.
  destruct src as [src|], dst as [dst|]; try discriminate.
  repeat case_bool_decide; try discriminate.
  destruct (collinear src || collinear dst); discriminate.
Qed.

(** The frame synchroniser finds the cut video at frame 50, and the
    detection sits exactly at the expected time (50 + 100) / 15 s. *)
Example sample_frame_offset :
  get_first_matching_frame_index recording cut = Ok 50.
Proof. vm_compute. reflexivity. Qed.

Example sample_window :
  filtered_by_timestamp [detection; stray_detection] T0 500000 (50 + 100) 15
  = Ok [detection].
Proof. vm_compute. reflexivity. Qed.

Lemma label_filter_override_rule_witness :
  ∃ kept,
    tagged_waggle_check
      (csv_row_of <$> [ {| label_id := "w1"; original_category := "untagged";
                           corrected_category := Some "tagged";
                           original_dance_type := "waggle";
                           corrected_dance_type_of := None |} ])
      [detection; stray_detection] = Ok kept
    ∧ ∀ c, c ∈ kept ↔
        c ∈ [detection; stray_detection]
        ∧ ∃ l, l ∈ [ {| label_id := "w1"; original_category := "untagged";
                        corrected_category := Some "tagged";
                        original_dance_type := "waggle";
                        corrected_dance_type_of := None |} ]
               ∧ label_id l = waggle_id c ∧ keeps l = true.
Proof.
  destruct label_filter_override_rule as (_ & Hloop & _).
  apply Hloop. intros c Hc.
  apply elem_of_cons in Hc as [->|Hc]; [vm_compute; lia|].
  apply list_elem_of_singleton in Hc as ->. vm_compute; lia.
Defined.

Lemma duplicate_labels_abort_run_witness :
  (∃ e, main (spec_CoordinateTransformer coincident_fit) args
          three_markers three_markers
          [job "cam-1_a.mp4" [tagged_waggle "w1"; tagged_waggle "w1"]]
        = Err e)
  ∧ main (spec_CoordinateTransformer coincident_fit) args
      three_markers three_markers
      [job "cam-1_a.mp4" [tagged_waggle "w1"; tagged_waggle "w2"]]
    ≠ Err AssertionError.
Proof.
  split.
  - apply (proj1 (duplicate_labels_abort_run
                    (spec_CoordinateTransformer coincident_fit) args
                    three_markers three_markers)
             [job "cam-1_a.mp4" [tagged_waggle "w1"; tagged_waggle "w1"]]
             (job "cam-1_a.mp4" [tagged_waggle "w1"; tagged_waggle "w1"])
             annotation 50 [detection] detection).
    + left.
    + left.
    + vm_compute. reflexivity.
    + vm_compute. reflexivity.
    + left.
    + vm_compute. lia.
  - apply (proj2 (duplicate_labels_abort_run
                    (spec_CoordinateTransformer coincident_fit) args
                    three_markers three_markers)).
    + apply spec_CoordinateTransformer_no_assertion.
    + intros j c Hj Hc. apply list_elem_of_singleton in Hj as ->.
      apply elem_of_cons in Hc as [->|Hc]; [vm_compute; lia|].
      apply list_elem_of_singleton in Hc as ->. vm_compute; lia.
Defined.

Lemma frame_sync_failure_skips_event_witness :
  match_videos (spec_CoordinateTransformer coincident_fit) args
    three_markers three_markers
    [unopened_job "cam-1_a.mp4" [tagged_waggle "w1"];
     job "cam-1_b.mp4" [tagged_waggle "w1"]] ∅
  = match_videos (spec_CoordinateTransformer coincident_fit) args
      three_markers three_markers
      [job "cam-1_b.mp4" [tagged_waggle "w1"]]
      (<["cam-1_a.mp4" := []]> ∅).
Proof.
  apply (frame_sync_failure_skips_event
           (spec_CoordinateTransformer coincident_fit) args
           three_markers three_markers
           (unopened_job "cam-1_a.mp4" [tagged_waggle "w1"]) UnableToOpen).
  vm_compute. reflexivity.
Defined.

(** C9 as stated fails: the stray detection has two label rows, but it is
    outside the window of every waggle run, the assertion on it is never
    evaluated, and the run ends normally. *)
Lemma stray_duplicate_labels_pass :
  stray_detection
    ∈ all_candidates
        (job "cam-1_a.mp4"
           [tagged_waggle "w1"; tagged_waggle "w2"; tagged_waggle "w2"])
  ∧ length (csv_rows_of
              [tagged_waggle "w1"; tagged_waggle "w2"; tagged_waggle "w2"]
              stray_detection) = 2%nat
  ∧ main (spec_CoordinateTransformer coincident_fit) args
      three_markers three_markers
      [job "cam-1_a.mp4"
         [tagged_waggle "w1"; tagged_waggle "w2"; tagged_waggle "w2"]]
    = Ok {[ "cam-1_a.mp4" :=
              [ {| manual_annotation := annotation; candidates := [] |} ] ]}.
Proof.
  split_and!.
  - right. left.
  - vm_compute. reflexivity.
  - vm_compute. reflexivity.
Qed.

(** C5 as stated fails: with two markers the transformer cannot be
    fitted; the exception leaves the comprehension, the loops and [main],
    and the second video is never processed. *)
Lemma transform_failure_aborts_run :
  get_marker_coordinates_by_timestamp (timestamp_begin detection) two_markers
  = Some [(0, 0); (1000, 0)]
  ∧ main (spec_CoordinateTransformer coincident_fit) args
      two_markers two_markers
      [job "cam-1_a.mp4" [tagged_waggle "w1"];
       job "cam-1_b.mp4" []]
    = Err InsufficientMarkers.
Proof. split; vm_compute; reflexivity. Qed.

(** C6 as stated fails: no marker set of the detection system is as old
    as the detection, the lookup returns nothing, the transformer is built
    from nothing all the same, and its failure ends the run. *)
Lemma missing_marker_set_aborts_run :
  get_marker_coordinates_by_timestamp (timestamp_begin detection) late_markers
  = None
  ∧ main (spec_CoordinateTransformer coincident_fit) args
      three_markers late_markers
      [job "cam-1_a.mp4" [tagged_waggle "w1"]]
    = Err InsufficientMarkers.
Proof. split; vm_compute; reflexivity. Qed.

End SampleRuns.

(** ** The [--undo_rotation] switch *)

Section UndoRotation.

Variable CoordinateTransformer :
  option (list point) → option (list point) → result Transformer.
Variable args : MyArgs.
Variables df_markers_hd df_markers_wdd : list Marker.row.
Variable b : bool.

Lemma coordinate_check_ignores_switch row cands :
  coordinate_check CoordinateTransformer (with_undo_rotation b args)
    df_markers_hd df_markers_wdd row cands
  = coordinate_check CoordinateTransformer args
      df_markers_hd df_markers_wdd row cands.
Proof. induction cands as [|c rest IH]; simpl; [done|]. by rewrite IH. Qed.

Lemma match_waggle_run_ignores_switch job row :
  match_waggle_run CoordinateTransformer (with_undo_rotation b args)
    df_markers_hd df_markers_wdd job row
  = match_waggle_run CoordinateTransformer args
      df_markers_hd df_markers_wdd job row.
Proof.
  unfold match_waggle_run. simpl.
  destruct (get_first_matching_frame_index _ _); [|done].
  destruct (filtered_by_timestamp _ _ _ _ _) as [kept|]; [|done].
  unfold_bind. case_bool_decide; [done|].
  destruct (tagged_waggle_check _ _); [|done].
  by rewrite coordinate_check_ignores_switch.
Qed.

Lemma match_waggle_runs_ignores_switch job rows matches :
  match_waggle_runs CoordinateTransformer (with_undo_rotation b args)
    df_markers_hd df_markers_wdd job rows matches
  = match_waggle_runs CoordinateTransformer args
      df_markers_hd df_markers_wdd job rows matches.
Proof.
  revert matches. induction rows as [|row rest IH]; intros matches; [done|].
  simpl. rewrite match_waggle_run_ignores_switch.
  destruct (match_waggle_run _ _ _ _ _ _); [|done]. apply IH.
Qed.

Lemma match_videos_ignores_switch jobs results :
  match_videos CoordinateTransformer (with_undo_rotation b args)
    df_markers_hd df_markers_wdd jobs results
  = match_videos CoordinateTransformer args
      df_markers_hd df_markers_wdd jobs results.
Proof.
  revert results. induction jobs as [|job rest IH]; intros results; [done|].
  simpl. rewrite match_waggle_runs_ignores_switch.
  destruct (match_waggle_runs _ _ _ _ _ _ _); [|done]. apply IH.
Qed.

End UndoRotation.

(** C7 (the code at the failing input): [main] gives the same result
    whatever the value of the switch.  On the sample recording the switch
    is on and the detection lies at the un-rotated position: the spatial
    check called with the switch accepts it, [main] drops it. *)
Theorem undo_rotation_switch_ignored :
  (∀ CoordinateTransformer args df_markers_hd df_markers_wdd jobs b,
     main CoordinateTransformer (with_undo_rotation b args)
       df_markers_hd df_markers_wdd jobs
     = main CoordinateTransformer args df_markers_hd df_markers_wdd jobs)
  ∧ undo_rotation Sample.args = true
  ∧ is_matching_coordinates (spec_CoordinateTransformer coincident_fit)
      Sample.detection Sample.annotation
      Sample.three_markers Sample.three_markers
      (coordinate_tolerance Sample.args) (fix_padding_flag Sample.args) true
    = Ok true
  ∧ main (spec_CoordinateTransformer coincident_fit) Sample.args
      Sample.three_markers Sample.three_markers
      [Sample.job "cam-1_a.mp4" [Sample.tagged_waggle "w1"]]
    = Ok {[ "cam-1_a.mp4" :=
              [ {| manual_annotation := Sample.annotation;
                   candidates := [] |} ] ]}.
Proof.
  split_and!.
  - intros. apply match_videos_ignores_switch.
  - reflexivity.
  - vm_compute. reflexivity.
  - vm_compute. reflexivity.
Qed.

(** * Further properties *)

(** ** Rotation, adjacency and the spatial check *)

Section SpatialCheck.

(** X1: [unrotate] is a quarter turn: four applications give the point
    back, and two points with the same image are the same point. *)
Theorem unrotate_order_four :
  (∀ p : point, unrotate (unrotate (unrotate (unrotate p))) = p)
  ∧ (∀ p q : point, unrotate p = unrotate q → p = q).
Proof.
  split.
  - intros [x y]. unfold unrotate. simpl. f_equal; lia.
  - intros [x y] [x' y']. unfold unrotate. simpl. intros [= Hy Hx].
    f_equal; lia.
Qed.

Lemma unrotate_order_four_witness :
  (100, 200) = ((100, 200) : point).
Proof.
  apply (proj2 unrotate_order_four (100, 200) (100, 200)). reflexivity.
Defined.

(** X2: adjacency does not depend on the order of the two points, it is
    kept when the tolerance grows, it never holds for a negative
    tolerance, and a point is adjacent to itself for every other one. *)
Theorem is_adjacent_symmetric_monotone (p q : point) (tol tol' : Z) :
  is_adjacent p q tol = is_adjacent q p tol
  ∧ (tol ≤ tol' → is_adjacent p q tol = true → is_adjacent p q tol' = true)
  ∧ (tol < 0 → is_adjacent p q tol = false)
  ∧ (0 ≤ tol → is_adjacent p p tol = true).
Proof.
  destruct p as [x1 y1], q as [x2 y2]. split_and!.
  - unfold is_adjacent. f_equal; apply bool_decide_ext; lia.
  - rewrite !is_adjacent_true. lia.
  - intros Hneg. apply not_true_is_false. rewrite is_adjacent_true. lia.
  - intros Hpos. apply is_adjacent_true. lia.
Qed.

Lemma is_adjacent_symmetric_monotone_witness :
  is_adjacent (600, 600) (500, 510) 150 = true
  ∧ is_adjacent (600, 600) (500, 510) (-1) = false
  ∧ is_adjacent (600, 600) (600, 600) 0 = true.
Proof.
  split_and!.
  - destruct (is_adjacent_symmetric_monotone (600, 600) (500, 510) 100 150)
      as (_ & H & _). apply H; [lia|reflexivity].
  - destruct (is_adjacent_symmetric_monotone (600, 600) (500, 510) (-1) 0)
      as (_ & _ & H & _). apply H. lia.
  - destruct (is_adjacent_symmetric_monotone (600, 600) (500, 510) 0 0)
      as (_ & _ & _ & H). apply H. lia.
Defined.

Variable CoordinateTransformer :
  option (list point) → option (list point) → result Transformer.


End SpatialCheck.

(** ** More on the temporal filter *)

Section TemporalEdges.

Lemma filtered_by_timestamp_inv cands T0 d start_frame fps kept :
  filtered_by_timestamp cands T0 d start_frame fps = Ok kept →
  ∃ e, time_elapsed start_frame fps = Ok e
    ∧ kept = filter (λ c, T0 + e - d ≤ timestamp_begin c ≤ T0 + e + d) cands.
Proof.
  unfold filtered_by_timestamp, datetime_add. unfold_bind.
  destruct (time_elapsed start_frame fps) as [e|]; [|done].
  repeat (case_bool_decide; [|done]).
  intros [= <-]. by exists e.
Qed.

Lemma sublist_filter_impl {A} (P Q : A → Prop)
    `{!∀ x, Decision (P x), !∀ x, Decision (Q x)} (l : list A) :
  (∀ x, P x → Q x) → filter P l `sublist_of` filter Q l.
Proof.
  intros HPQ. induction l as [|x l IH]; [done|].
  rewrite !filter_cons. destruct (decide (P x)) as [HP|HP].
  - rewrite decide_True by auto. by constructor.
  - destruct (decide (Q x)); [by constructor|done].
Qed.

(** X4: a larger tolerance never loses a candidate: what the filter
    returns for the smaller tolerance is, in the same order, part of what
    it returns for the larger one, which is part of the candidates. *)
Theorem temporal_filter_tolerance_monotone
    (cands : list Candidate) (T0 start_frame fps d1 d2 : Z)
    (kept1 kept2 : list Candidate) :
  filtered_by_timestamp cands T0 d1 start_frame fps = Ok kept1 →
  filtered_by_timestamp cands T0 d2 start_frame fps = Ok kept2 →
  d1 ≤ d2 →
  kept1 `sublist_of` kept2 ∧ kept2 `sublist_of` cands.
Proof.
  intros (e1 & He1 & ->)%filtered_by_timestamp_inv
         (e2 & He2 & ->)%filtered_by_timestamp_inv Hd.
  assert (e1 = e2) as -> by congruence.
  split; [|apply sublist_filter].
  apply sublist_filter_impl. intros c. lia.
Qed.

Lemma temporal_filter_tolerance_monotone_witness :
  [Sample.detection] `sublist_of` [Sample.detection]
  ∧ [Sample.detection] `sublist_of` [Sample.detection; Sample.stray_detection].
Proof.
  apply (temporal_filter_tolerance_monotone
           [Sample.detection; Sample.stray_detection]
           Sample.T0 150 15 0 500000).
  - vm_compute. reflexivity.
  - vm_compute. reflexivity.
  - lia.
Defined.

(** X5: with a negative tolerance the filter returns nothing, and with a
    tolerance of zero all candidates it returns begin at the same
    instant. *)
Theorem temporal_filter_small_tolerance
    (cands : list Candidate) (T0 start_frame fps d : Z)
    (kept : list Candidate) :
  filtered_by_timestamp cands T0 d start_frame fps = Ok kept →
  (d < 0 → kept = [])
  ∧ (d = 0 → ∀ c1 c2, c1 ∈ kept → c2 ∈ kept →
               timestamp_begin c1 = timestamp_begin c2).
Proof.
  intros (e & He & ->)%filtered_by_timestamp_inv. split.
  - intros Hd. induction cands as [|c cands IH]; [done|].
    rewrite filter_cons, decide_False by lia. exact IH.
  - intros -> c1 c2 [H1 _]%list_elem_of_filter [H2 _]%list_elem_of_filter. lia.
Qed.

Lemma temporal_filter_small_tolerance_witness :
  filtered_by_timestamp [Sample.detection; Sample.stray_detection]
    Sample.T0 (-1) 150 15 = Ok []
  ∧ ∀ c1 c2, c1 ∈ [Sample.detection] → c2 ∈ [Sample.detection] →
      timestamp_begin c1 = timestamp_begin c2.
Proof.
  split; [vm_compute; reflexivity|].
  apply (temporal_filter_small_tolerance
           [Sample.detection; Sample.stray_detection] Sample.T0 150 15 0).
  - vm_compute. reflexivity.
  - reflexivity.
Defined.

Lemma int_true_divide_zero_division a b :
  int_true_divide a b = Err ZeroDivisionError ↔ b = 0.
Proof.
  unfold int_true_divide. case_bool_decide as Hb; [done|].
  split; [|done].
  destruct (bool_decide (a = 0)); [done|].
  by destruct (SFdiv _ _ _ _).
Qed.

Lemma timedelta_of_seconds_no_zero_division s :
  timedelta_of_seconds s ≠ Err ZeroDivisionError.
Proof.
  unfold timedelta_of_seconds. destruct s as [| | |sign m e]; try discriminate.
  destruct (modf_magnitude m e). case_bool_decide; discriminate.
Qed.

(** X6: the filter raises [ZeroDivisionError] exactly when the frame rate
    is zero, whatever the other arguments are. *)
Theorem temporal_filter_zero_division
    (cands : list Candidate) (T0 d start_frame fps : Z) :
  filtered_by_timestamp cands T0 d start_frame fps = Err ZeroDivisionError
  ↔ fps = 0.
Proof.
  unfold filtered_by_timestamp, time_elapsed, datetime_add. split.
  - destruct (int_true_divide start_frame fps) as [q|x] eqn:Hq.
    + unfold_bind.
      destruct (timedelta_of_seconds q) as [e|x] eqn:He.
      * repeat (case_bool_decide; [|done]). done.
      * intros [= ->]. by apply timedelta_of_seconds_no_zero_division in He.
    + intros [= ->]. by apply int_true_divide_zero_division in Hq.
  - intros ->. reflexivity.
Qed.

Lemma round_half_even_magnitude_nonneg m e :
  0 ≤ round_half_even_magnitude m e.
Proof.
  unfold round_half_even_magnitude.
  assert (0 ≤ Z.pos m ≫ (- e)) by (apply Z.shiftr_nonneg; lia).
  case_bool_decide.
  - apply Z.mul_nonneg_nonneg; [lia|]. by apply Z.pow_nonneg.
  - repeat case_bool_decide; try destruct (Z.even _); lia.
Qed.

Lemma round_half_even_magnitude_zero m e :
  round_half_even_magnitude m e = 0 ↔ e < 0 ∧ 2 * Z.pos m ≤ 2 ^ (- e).
Proof.
  unfold round_half_even_magnitude. case_bool_decide as He.
  - assert (0 < 2 ^ e) by (apply Z.pow_pos_nonneg; lia). split; [nia|lia].
  - assert (Hk : 0 < - e) by lia.
    assert (Hpow : 2 ^ (- e) = 2 * 2 ^ (- e - 1)).
    { rewrite <- Z.pow_succ_r by lia. f_equal. lia. }
    assert (Hhalf : 0 < 2 ^ (- e - 1)) by (apply Z.pow_pos_nonneg; lia).
    rewrite Z.shiftr_div_pow2 by lia.
    pose proof (Z.div_mod (Z.pos m) (2 ^ (- e)) ltac:(lia)) as Hdm.
    pose proof (Z.mod_pos_bound (Z.pos m) (2 ^ (- e)) ltac:(lia)) as Hmod.
    assert (Hq : 0 ≤ Z.pos m `div` 2 ^ (- e)) by (apply Z.div_pos; lia).
    destruct (decide (Z.pos m `div` 2 ^ (- e) = 0)) as [Hq0|Hq0].
    + rewrite Hq0 in *. simpl.
      repeat case_bool_decide; split; intros; try lia.
    + assert (2 ^ (- e) ≤ Z.pos m) by nia.
      repeat case_bool_decide; try destruct (Z.even _); split; intros; lia.
Qed.

(** X7: the frame rate [main] settles on is never negative, and it is
    zero exactly when the original video exists and its metadata give a
    rate above 0 and not above one half. *)
Theorem main_video_fps_range (original_video_exists : bool) (fps : spec_float) :
  0 ≤ main_video_fps original_video_exists fps
  ∧ (main_video_fps original_video_exists fps = 0
     ↔ original_video_exists = true
       ∧ ∃ m e, fps = S754_finite false m e ∧ e < 0 ∧ 2 * Z.pos m ≤ 2 ^ (- e)).
Proof.
  unfold main_video_fps, get_video_fps, HD_CAM_FPS.
  destruct original_video_exists; [|split; [lia|split; [lia|intros [[=] _]]]].
  destruct fps as [s|[]|
                   |[] m e]; try (split; [lia|split; [lia|]]; intros [_ (?&?&?&_)]; done).
  split; [apply round_half_even_magnitude_nonneg|].
  rewrite round_half_even_magnitude_zero. split.
  - intros ?. split; [done|]. by exists m, e.
  - intros [_ (m' & e' & [= <- <-] & ?)]. done.
Qed.

(** A rate of one half rounds to zero, the default replaces a rate of
    zero, a rate of 1498.5 rounds to the even 1498, and a missing file
    gives the default. *)
Example main_video_fps_samples :
  main_video_fps true (S754_finite false 1 (-1)) = 0
  ∧ main_video_fps true (S754_zero false) = 15
  ∧ main_video_fps true (S754_finite false 2997 (-1)) = 1498
  ∧ main_video_fps false (S754_finite false 30 0) = 15.
Proof. by vm_compute. Qed.

End TemporalEdges.

(** ** More on frame synchronisation *)

Section FrameSyncEdges.

Lemma scan_frames_shift target frames k n :
  scan_frames target frames (k + n)
  = (λ r : bool * Z, (r.1, r.2 + n)) (scan_frames target frames k).
Proof.
  revert k. induction frames as [|frame frames IH]; intros k; simpl; [done|].
  case_bool_decide; [done|].
  replace (k + n + 1) with (k + 1 + n) by lia. apply IH.
Qed.

Lemma scan_frames_app target pre frames k :
  target ∉ pre →
  scan_frames target (pre ++ frames) k
  = scan_frames target frames (k + Z.of_nat (length pre)).
Proof.
  revert k. induction pre as [|frame pre IH]; intros k Hpre; simpl.
  - by rewrite Z.add_0_r.
  - apply not_elem_of_cons in Hpre as [Hne Hpre].
    rewrite bool_decide_eq_false_2 by done. rewrite IH by done.
    f_equal. lia.
Qed.

Lemma scan_frames_found_app target frames post k idx :
  scan_frames target frames k = (true, idx) →
  scan_frames target (frames ++ post) k = (true, idx).
Proof.
  revert k. induction frames as [|frame frames IH]; intros k; simpl; [done|].
  case_bool_decide; [done|]. apply IH.
Qed.

(** X8: an index that the synchroniser returns is a position of the
    reference video, it holds the first frame of the cut video, and no
    earlier position does. *)
Theorem frame_sync_result (original_video cut_video : Video) (i : Z) :
  get_first_matching_frame_index original_video cut_video = Ok i →
  ∃ frames target,
    original_video = Some frames
    ∧ get_starting_frame cut_video = Ok target
    ∧ 0 ≤ i < Z.of_nat (length frames)
    ∧ frames !! Z.to_nat i = Some target
    ∧ ∀ j : nat, (j < Z.to_nat i)%nat → frames !! j ≠ Some target.
Proof.
  unfold get_first_matching_frame_index.
  destruct (get_starting_frame cut_video) as [target|] eqn:Hcut; [|done].
  unfold_bind. destruct original_video as [frames|]; [|done].
  pose proof (scan_frames_first target frames 0) as Hscan.
  destruct (scan_frames target frames 0) as [[] idx]; [|done].
  intros [= <-]. destruct Hscan as (n & -> & Hn & Hmin).
  exists frames, target. rewrite Z.add_0_l, Nat2Z.id.
  split_and!; [done|done|lia| |done|done].
  apply lookup_lt_Some in Hn. lia.
Qed.

Lemma frame_sync_result_witness :
  ∃ frames target,
    Sample.recording = Some frames
    ∧ get_starting_frame Sample.cut = Ok target
    ∧ 0 ≤ 50 < Z.of_nat (length frames)
    ∧ frames !! Z.to_nat 50 = Some target
    ∧ ∀ j : nat, (j < Z.to_nat 50)%nat → frames !! j ≠ Some target.
Proof.
  apply (frame_sync_result Sample.recording Sample.cut 50).
  vm_compute. reflexivity.
Defined.

(** X9: each way in which the synchroniser fails.  A cut video that does
    not open or has no frame is reported before the original video is
    looked at; the search itself only fails when the original video opens
    and none of its frames equals the first frame of the cut video. *)
Theorem frame_sync_errors (original_video cut_video : Video) :
  (cut_video = None →
   get_first_matching_frame_index original_video cut_video = Err UnableToOpen)
  ∧ (cut_video = Some [] →
     get_first_matching_frame_index original_video cut_video = Err NoFrameIn)
  ∧ (∀ target rest, cut_video = Some (target :: rest) →
       original_video = None →
       get_first_matching_frame_index original_video cut_video
       = Err UnableToOpen)
  ∧ (get_first_matching_frame_index original_video cut_video
     = Err UnableToFindMatchingFrame
     ↔ ∃ frames target rest,
         original_video = Some frames
         ∧ cut_video = Some (target :: rest) ∧ target ∉ frames).
Proof.
  split_and!.
  - by intros ->.
  - by intros ->.
  - by intros target rest -> ->.
  - unfold get_first_matching_frame_index. split.
    + destruct cut_video as [[|target rest]|]; simpl; try done.
      unfold_bind. destruct original_video as [frames|]; [|done].
      pose proof (scan_frames_first target frames 0) as Hscan.
      destruct (scan_frames target frames 0) as [[] idx]; [done|].
      intros _. by exists frames, target, rest.
    + intros (frames & target & rest & -> & -> & Hnot). simpl. unfold_bind.
      pose proof (scan_frames_first target frames 0) as Hscan.
      destruct (scan_frames target frames 0) as [[] idx]; [|done].
      destruct Hscan as (n & _ & Hn & _).
      destruct Hnot. by eapply list_elem_of_lookup_2.
Qed.

Lemma frame_sync_errors_witness :
  get_first_matching_frame_index None (Some []) = Err NoFrameIn
  ∧ get_first_matching_frame_index None (None : Video) = Err UnableToOpen
  ∧ get_first_matching_frame_index None (Some [[7]; [8]]) = Err UnableToOpen.
Proof.
  split_and!.
  - by apply (frame_sync_errors None (Some [])).
  - by apply (frame_sync_errors None None).
  - destruct (frame_sync_errors None (Some [[7]; [8]])) as (_ & _ & H & _).
    by apply (H [7] [[8]]).
Defined.

(** X10: frames in front of the original video that differ from the
    first frame of the cut video move the index by their number, and
    frames after the match do not change it: the search stops at the
    match. *)
Theorem frame_sync_surrounding_frames
    (pre frames post cut_frames : list Frame) (target : Frame) (i : Z) :
  head cut_frames = Some target →
  target ∉ pre →
  get_first_matching_frame_index (Some frames) (Some cut_frames) = Ok i →
  get_first_matching_frame_index (Some (pre ++ frames ++ post)) (Some cut_frames)
  = Ok (Z.of_nat (length pre) + i).
Proof.
  intros Hhead Hpre. destruct cut_frames as [|first rest]; simplify_eq/=.
  unfold get_first_matching_frame_index. simpl. unfold_bind.
  rewrite scan_frames_app by done. simpl.
  rewrite (scan_frames_shift target (frames ++ post) 0).
  destruct (scan_frames target frames 0) as [[] idx] eqn:Hscan; [|done].
  intros [= <-]. rewrite (scan_frames_found_app _ _ post _ _ Hscan). simpl.
  f_equal. lia.
Qed.

Lemma frame_sync_surrounding_frames_witness :
  get_first_matching_frame_index
    (Some ([[0]; [0]] ++ [[1]; [7]; [8]] ++ [[7]])) (Some [[7]; [8]])
  = Ok (Z.of_nat (length [[0]; [0]]) + 1).
Proof.
  apply (frame_sync_surrounding_frames
           [[0]; [0]] [[1]; [7]; [8]] [[7]] [[7]; [8]] [7] 1).
  - reflexivity.
  - apply not_elem_of_cons. split; [discriminate|].
    apply not_elem_of_cons. split; [discriminate|]. apply not_elem_of_nil.
  - reflexivity.
Defined.

End FrameSyncEdges.

(** ** More on marker lookup *)

Section MarkerEdges.

(** The two outcomes of the lookup. *)
Lemma marker_lookup_cases t (df : list Marker.row) :
  match get_marker_coordinates_by_timestamp t df with
  | Some marker_coords =>
      ∃ shown,
        (∃ r, r ∈ df ∧ Marker.timestamp r = shown)
        ∧ shown ≤ t
        ∧ (∀ r, r ∈ df → Marker.timestamp r ≤ t → Marker.timestamp r ≤ shown)
        ∧ marker_coords
          = (λ r, (Marker.x r, Marker.y r))
              <$> filter (λ r, Marker.timestamp r = shown) df
  | None => ∀ r, r ∈ df → t < Marker.timestamp r
  end.
Proof.
  unfold get_marker_coordinates_by_timestamp, timestamp_to_show.
  pose proof (timestamp_to_show_sorted t (marker_timestamps df) None) as Hshow.
  destruct (foldl _ None (marker_timestamps df)) as [shown|].
  - destruct Hshow as (Hle & Hin & Hmax);
      [apply StronglySorted_merge_sort; apply _|done|].
    destruct Hin as [Hin|[=]]. exists shown. split_and!; [|done| |done].
    + by apply elem_of_marker_timestamps.
    + intros r Hr Hrt. apply Hmax; [|done].
      apply elem_of_marker_timestamps. eauto.
  - destruct Hshow as [_ Hall];
      [apply StronglySorted_merge_sort; apply _|done|].
    intros r Hr. apply Hall, elem_of_marker_timestamps. eauto.
Qed.

(** The lookup is settled by the latest timestamp not after the
    detection. *)
Lemma marker_lookup_latest t (df : list Marker.row) shown :
  (∃ r, r ∈ df ∧ Marker.timestamp r = shown) →
  shown ≤ t →
  (∀ r, r ∈ df → Marker.timestamp r ≤ t → Marker.timestamp r ≤ shown) →
  get_marker_coordinates_by_timestamp t df
  = Some ((λ r, (Marker.x r, Marker.y r))
            <$> filter (λ r, Marker.timestamp r = shown) df).
Proof.
  intros (r0 & Hr0 & Hts0) Hle Hmax.
  pose proof (marker_lookup_cases t df) as Hcases.
  destruct (get_marker_coordinates_by_timestamp t df) as [coords|].
  - destruct Hcases as (shown' & (r1 & Hr1 & Hts1) & Hle' & Hmax' & ->).
    assert (shown' = shown) as ->; [|done].
    specialize (Hmax r1 Hr1). specialize (Hmax' r0 Hr0). lia.
  - specialize (Hcases r0 Hr0). lia.
Qed.

(** X11: the lookup only depends on the rows that are not later than the
    detection: dropping all later rows from the table changes nothing. *)
Theorem marker_lookup_ignores_later_rows (t : Z) (df_markers : list Marker.row) :
  get_marker_coordinates_by_timestamp t
    (filter (λ r, Marker.timestamp r ≤ t) df_markers)
  = get_marker_coordinates_by_timestamp t df_markers.
Proof.
  pose proof (marker_lookup_cases t df_markers) as Hcases.
  destruct (get_marker_coordinates_by_timestamp t df_markers) as [coords|].
  - destruct Hcases as (shown & (r0 & Hr0 & Hts0) & Hle & Hmax & ->).
    rewrite (marker_lookup_latest t _ shown).
    + rewrite list_filter_filter. do 2 f_equal.
      apply list_filter_iff. intros r. lia.
    + exists r0. split; [|done]. apply list_elem_of_filter. split; [lia|done].
    + done.
    + intros r [_ Hr]%list_elem_of_filter. by apply Hmax.
  - pose proof (marker_lookup_cases t
                  (filter (λ r, Marker.timestamp r ≤ t) df_markers)) as Hsub.
    destruct (get_marker_coordinates_by_timestamp t (filter _ _)) as [coords|];
      [|done].
    destruct Hsub as (shown & (r0 & [Hle Hr0]%list_elem_of_filter & _) & _).
    specialize (Hcases r0 Hr0). lia.
Qed.

(** X12: a marker set stamped with the very instant of the detection is
    the one that is used, and a lookup that returns a marker set returns
    at least one point. *)
Theorem marker_lookup_at_detection (t : Z) (df_markers : list Marker.row) :
  (∀ r, r ∈ df_markers → Marker.timestamp r = t →
     get_marker_coordinates_by_timestamp t df_markers
     = Some ((λ r, (Marker.x r, Marker.y r))
               <$> filter (λ r, Marker.timestamp r = t) df_markers))
  ∧ (∀ marker_coords,
       get_marker_coordinates_by_timestamp t df_markers = Some marker_coords →
       marker_coords ≠ []).
Proof.
  split.
  - intros r Hr Hts. apply marker_lookup_latest; [by exists r|lia|done].
  - intros coords Hget.
    pose proof (marker_lookup_cases t df_markers) as Hcases.
    rewrite Hget in Hcases.
    destruct Hcases as (shown & (r0 & Hr0 & Hts0) & _ & _ & ->).
    intros Hnil%fmap_nil_inv.
    eapply (filter_nil_not_elem_of _ _ r0); done.
Qed.

Lemma marker_lookup_at_detection_witness :
  get_marker_coordinates_by_timestamp 5 Sample.mixed_markers
  = Some ((λ r, (Marker.x r, Marker.y r))
            <$> filter (λ r, Marker.timestamp r = 5) Sample.mixed_markers)
  ∧ [(3, 4); (7, 8)] ≠ ([] : list point).
Proof.
  split.
  - apply (proj1 (marker_lookup_at_detection 5 Sample.mixed_markers)
             {| Marker.timestamp := 5; Marker.x := 3; Marker.y := 4 |});
      [|reflexivity].
    right. left.
  - apply (proj2 (marker_lookup_at_detection 5 Sample.mixed_markers)).
    reflexivity.
Defined.

Example marker_lookup_mixed :
  get_marker_coordinates_by_timestamp 5 Sample.mixed_markers
  = Some [(3, 4); (7, 8)]
  ∧ get_marker_coordinates_by_timestamp 8 Sample.mixed_markers
    = Some [(3, 4); (7, 8)]
  ∧ get_marker_coordinates_by_timestamp 0 Sample.mixed_markers = None.
Proof. by vm_compute. Qed.

(** X13: once a marker set is found for a detection, one is found for
    every later detection, and its timestamp is not earlier. *)
Theorem marker_lookup_monotone (t1 t2 : Z) (df_markers : list Marker.row) :
  t1 ≤ t2 →
  is_Some (get_marker_coordinates_by_timestamp t1 df_markers) →
  is_Some (get_marker_coordinates_by_timestamp t2 df_markers)
  ∧ ∀ shown1 shown2,
      timestamp_to_show t1 (marker_timestamps df_markers) = Some shown1 →
      timestamp_to_show t2 (marker_timestamps df_markers) = Some shown2 →
      shown1 ≤ shown2.
Proof.
  intros Ht [coords1 H1].
  pose proof (marker_lookup_cases t1 df_markers) as Hc1.
  rewrite H1 in Hc1. destruct Hc1 as (s1 & (r1 & Hr1 & Hts1) & Hle1 & _ & _).
  split.
  - pose proof (marker_lookup_cases t2 df_markers) as Hc2.
    destruct (get_marker_coordinates_by_timestamp t2 df_markers); [done|].
    specialize (Hc2 r1 Hr1). lia.
  - intros shown1 shown2 Hs1 Hs2.
    pose proof (timestamp_to_show_sorted t1 (marker_timestamps df_markers) None)
      as Hshow1.
    pose proof (timestamp_to_show_sorted t2 (marker_timestamps df_markers) None)
      as Hshow2.
    unfold timestamp_to_show in Hs1, Hs2. rewrite Hs1 in Hshow1.
    rewrite Hs2 in Hshow2.
    destruct Hshow1 as (Hl1 & [Hin1|[=]] & _);
      [apply StronglySorted_merge_sort; apply _|done|].
    destruct Hshow2 as (_ & _ & Hmax2);
      [apply StronglySorted_merge_sort; apply _|done|].
    apply Hmax2; [done|lia].
Qed.

Lemma marker_lookup_monotone_witness :
  is_Some (get_marker_coordinates_by_timestamp
             (Sample.T0 + 7) Sample.three_markers)
  ∧ ∀ shown1 shown2,
      timestamp_to_show Sample.T0 (marker_timestamps Sample.three_markers)
      = Some shown1 →
      timestamp_to_show (Sample.T0 + 7) (marker_timestamps Sample.three_markers)
      = Some shown2 →
      shown1 ≤ shown2.
Proof.
  apply (marker_lookup_monotone Sample.T0 (Sample.T0 + 7) Sample.three_markers).
  - lia.
  - vm_compute. eauto.
Defined.

End MarkerEdges.

(** ** The funnel of one waggle run *)

Section Funnel.

(** What the label loop returns when it returns: the candidates with
    exactly one label row, that row being tagged and a waggle, in their
    order. *)
Lemma tagged_waggle_check_kept csv cands kept :
  tagged_waggle_check csv cands = Ok kept →
  kept `sublist_of` cands
  ∧ ∀ c, c ∈ kept ↔
      c ∈ cands
      ∧ ∃ row0, csv_rows_of csv c = [row0] ∧ tagged_and_waggle row0 = Ok true.
Proof.
  revert kept. induction cands as [|c0 rest IH]; intros kept; simpl.
  - intros [= <-]. split; [done|]. intros c. rewrite elem_of_nil. tauto.
  - fold (csv_rows_of csv c0). case_bool_decide as Hone; [|done].
    destruct (csv_rows_of csv c0) as [|row0 more] eqn:Hrows.
    + intros [Hsub Hin]%IH. split; [by constructor|]. intros c.
      rewrite Hin, elem_of_cons. split; [tauto|].
      intros [[->|?] (r & Hr & ?)]; [congruence|eauto].
    + destruct more; [|simpl in Hone; lia].
      destruct (tagged_and_waggle row0) as [[]|] eqn:Hkeep; unfold_bind;
        [| |done].
      * destruct (tagged_waggle_check csv rest) as [kept'|]; [|done].
        destruct (IH kept' eq_refl) as [Hsub Hin]. intros [= <-].
        split; [by constructor|]. intros c.
        rewrite !elem_of_cons, Hin. split; [|tauto].
        intros [->|?]; [|tauto]. split; [by left|eauto].
      * destruct (is_tagged row0); [|done]. destruct (is_waggle row0); [|done].
        intros [Hsub Hin]%IH. split; [by constructor|]. intros c.
        rewrite Hin, elem_of_cons. split; [tauto|].
        intros [[->|?] (r & Hr & Hr')]; [congruence|eauto].
Qed.

Variable CoordinateTransformer :
  option (list point) → option (list point) → result Transformer.
Variable args : MyArgs.
Variables df_markers_hd df_markers_wdd : list Marker.row.

Lemma coordinate_check_kept row cands kept :
  coordinate_check CoordinateTransformer args df_markers_hd df_markers_wdd
    row cands = Ok kept →
  kept `sublist_of` cands
  ∧ ∀ c, c ∈ kept ↔
      c ∈ cands
      ∧ is_matching_coordinates CoordinateTransformer c row
          df_markers_hd df_markers_wdd (coordinate_tolerance args)
          (fix_padding_flag args) false = Ok true.
Proof.
  revert kept. induction cands as [|c0 rest IH]; intros kept; simpl.
  - intros [= <-]. split; [done|]. intros c. rewrite elem_of_nil. tauto.
  - destruct (is_matching_coordinates _ c0 _ _ _ _ _ _) as [matching|] eqn:Hm;
      [|done].
    unfold_bind.
    destruct (coordinate_check _ _ _ _ row rest) as [kept'|]; [|done].
    destruct (IH kept' eq_refl) as [Hsub Hin]. intros [= <-].
    destruct matching.
    + split; [by constructor|]. intros c.
      rewrite !elem_of_cons, Hin. split; [|tauto].
      intros [->|?]; [|tauto]. split; [by left|done].
    + split; [by constructor|]. intros c.
      rewrite Hin, elem_of_cons. split; [tauto|].
      intros [[->|?] Hc]; [congruence|done].
Qed.

(** X14: a label row with a missing category or a missing dance type
    cannot be judged: once its candidate is reached, the label loop raises
    [TypeError], whatever the corrections say; a candidate without any
    label row is passed over without a word. *)
Theorem label_loop_missing_data
    (csv : list Label.row) (c : Candidate) (rest : list Candidate) :
  (∀ row0, csv_rows_of csv c = [row0] →
     Label.category_label row0 = None ∨ Label.dance_type row0 = None →
     tagged_waggle_check csv (c :: rest) = Err TypeError)
  ∧ (csv_rows_of csv c = [] →
     tagged_waggle_check csv (c :: rest) = tagged_waggle_check csv rest).
Proof.
  split.
  - intros row0 Hrows Hmissing. simpl. fold (csv_rows_of csv c).
    rewrite Hrows. simpl.
    unfold tagged_and_waggle, is_tagged, is_waggle, original_or_corrected.
    destruct Hmissing as [->| ->]; [done|].
    destruct (Label.category_label row0) as [category|]; [|done]. simpl.
    destruct (bool_decide (category = _)),
      (Label.corrected_category_label row0) as [corrected|]; simpl;
      try done; by destruct (bool_decide (corrected = _)).
  - intros Hrows. simpl. fold (csv_rows_of csv c). by rewrite Hrows.
Qed.

Lemma label_loop_missing_data_witness :
  tagged_waggle_check
    [ {| Label.waggle_id := "w1"; Label.category_label := Some "untagged";
         Label.corrected_category_label := None;
         Label.dance_type := None;
         Label.corrected_dance_type := Some "waggle" |} ]
    [Sample.detection; Sample.stray_detection] = Err TypeError.
Proof.
  destruct (label_loop_missing_data
    [ {| Label.waggle_id := "w1"; Label.category_label := Some "untagged";
         Label.corrected_category_label := None;
         Label.dance_type := None;
         Label.corrected_dance_type := Some "waggle" |} ]
    Sample.detection [Sample.stray_detection]) as [H _].
  eapply H; [reflexivity|]. by right.
Defined.

Lemma match_waggle_run_annotation job row record :
  match_waggle_run CoordinateTransformer args df_markers_hd df_markers_wdd
    job row = Ok (Some record) →
  manual_annotation record = row.
Proof.
  unfold match_waggle_run.
  destruct (get_first_matching_frame_index _ _); [|done].
  destruct (filtered_by_timestamp _ _ _ _ _); [|done]. unfold_bind.
  case_bool_decide; [done|].
  destruct (tagged_waggle_check _ _); [|done].
  destruct (coordinate_check _ _ _ _ _ _); [|done].
  by intros [= <-].
Qed.

(** X15: the record of a waggle run holds, in the order of the table of
    detections, exactly the detections that pass all three filters: they
    begin in the time window around the annotated frame, they have a
    single label row that is tagged and a waggle, and the spatial check
    accepts them. *)
Theorem match_waggle_run_record (job : VideoJob) (row : ManualRow)
    (record : MatchRecord) :
  match_waggle_run CoordinateTransformer args df_markers_hd df_markers_wdd
    job row = Ok (Some record) →
  ∃ frame_offset e,
    get_first_matching_frame_index (original_video job) (cut_video job)
    = Ok frame_offset
    ∧ time_elapsed (frame_offset + waggle_start_frames row) (video_fps job)
      = Ok e
    ∧ manual_annotation record = row
    ∧ candidates record `sublist_of` all_candidates job
    ∧ ∀ c, c ∈ candidates record ↔
        c ∈ all_candidates job
        ∧ timestamp job + e - time_tolerance args ≤ timestamp_begin c
          ≤ timestamp job + e + time_tolerance args
        ∧ (∃ row0, csv_rows_of (csv_df job) c = [row0]
                   ∧ tagged_and_waggle row0 = Ok true)
        ∧ is_matching_coordinates CoordinateTransformer c row
            df_markers_hd df_markers_wdd (coordinate_tolerance args)
            (fix_padding_flag args) false = Ok true.
Proof.
  unfold match_waggle_run.
  destruct (get_first_matching_frame_index _ _) as [frame_offset|]; [|done].
  destruct (filtered_by_timestamp _ _ _ _ _) as [timed|] eqn:Htimed; [|done].
  unfold_bind. case_bool_decide; [done|].
  destruct (tagged_waggle_check _ _) as [labelled|] eqn:Hlabelled; [|done].
  destruct (coordinate_check _ _ _ _ _ _) as [matched|] eqn:Hmatched; [|done].
  intros [= <-]. simpl.
  apply filtered_by_timestamp_inv in Htimed as (e & He & ->).
  apply tagged_waggle_check_kept in Hlabelled as [Hsub1 Hin1].
  apply coordinate_check_kept in Hmatched as [Hsub2 Hin2].
  exists frame_offset, e. split_and!; [done|done|done| |].
  - etrans; [done|]. etrans; [done|]. apply sublist_filter.
  - intros c. rewrite Hin2, Hin1, list_elem_of_filter. tauto.
Qed.

(** X16: a waggle run is passed over without a record in two cases only:
    the frames could not be synchronised, or no detection begins in the
    time window.  A run whose detections are all lost to the label filter
    or the spatial check still gets a record. *)
Theorem match_waggle_run_passed_over (job : VideoJob) (row : ManualRow) :
  match_waggle_run CoordinateTransformer args df_markers_hd df_markers_wdd
    job row = Ok None
  ↔ (∃ e, get_first_matching_frame_index (original_video job) (cut_video job)
          = Err e)
    ∨ (∃ frame_offset,
         get_first_matching_frame_index (original_video job) (cut_video job)
         = Ok frame_offset
         ∧ filtered_by_timestamp (all_candidates job) (timestamp job)
             (time_tolerance args)
             (frame_offset + waggle_start_frames row) (video_fps job)
           = Ok []).
Proof.
  unfold match_waggle_run.
  destruct (get_first_matching_frame_index _ _) as [frame_offset|e].
  - destruct (filtered_by_timestamp _ _ _ _ _) as [timed|x] eqn:Htimed;
      unfold_bind.
    + case_bool_decide as Hempty.
      * apply length_zero_iff_nil in Hempty as ->. split; [|done].
        intros _. right. by exists frame_offset.
      * split.
        -- destruct (tagged_waggle_check _ _); [|done].
           by destruct (coordinate_check _ _ _ _ _ _).
        -- intros [[e [=]]|(o & [= <-] & Hnone)].
           rewrite Htimed in Hnone. injection Hnone as ->. done.
    + split; [done|]. intros [[e [=]]|(o & [= <-] & Hnone)]. congruence.
  - split; [|done]. intros _. left. by exists e.
Qed.

End Funnel.

Lemma match_waggle_run_record_witness :
  ∃ frame_offset e,
    get_first_matching_frame_index Sample.recording Sample.cut = Ok frame_offset
    ∧ time_elapsed (frame_offset + 100) 15 = Ok e
    ∧ Sample.annotation = Sample.annotation
    ∧ [] `sublist_of` [Sample.detection; Sample.stray_detection]
    ∧ ∀ c, c ∈ [] ↔
        c ∈ [Sample.detection; Sample.stray_detection]
        ∧ Sample.T0 + e - 500000 ≤ timestamp_begin c ≤ Sample.T0 + e + 500000
        ∧ (∃ row0, csv_rows_of [Sample.tagged_waggle "w1"] c = [row0]
                   ∧ tagged_and_waggle row0 = Ok true)
        ∧ is_matching_coordinates
            (spec_CoordinateTransformer coincident_fit) c Sample.annotation
            Sample.three_markers Sample.three_markers 100 false false
          = Ok true.
Proof.
  apply (match_waggle_run_record
           (spec_CoordinateTransformer coincident_fit) Sample.args
           Sample.three_markers Sample.three_markers
           (Sample.job "cam-1_a.mp4" [Sample.tagged_waggle "w1"])
           Sample.annotation
           {| manual_annotation := Sample.annotation; candidates := [] |}).
  vm_compute. reflexivity.
Defined.


(** ** The dictionary of results *)

Section Results.

Variable CoordinateTransformer :
  option (list point) → option (list point) → result Transformer.
Variable args : MyArgs.
Variables df_markers_hd df_markers_wdd : list Marker.row.

Lemma match_waggle_runs_appends job rows matches final :
  match_waggle_runs CoordinateTransformer args df_markers_hd df_markers_wdd
    job rows matches = Ok final →
  ∃ new, final = matches ++ new
    ∧ manual_annotation <$> new `sublist_of` rows.
Proof.
  revert matches. induction rows as [|row rest IH]; intros matches; simpl.
  - intros [= <-]. exists []. by rewrite app_nil_r.
  - destruct (match_waggle_run _ _ _ _ job row) as [outcome|] eqn:Hrun; [|done].
    unfold_bind. intros (new & -> & Hsub)%IH. destruct outcome as [record|].
    + exists (record :: new). rewrite <- app_assoc. split; [done|].
      apply match_waggle_run_annotation in Hrun as <-. simpl.
      by constructor.
    + exists new. split; [done|]. by constructor.
Qed.

Lemma match_videos_lookup jobs results final :
  match_videos CoordinateTransformer args df_markers_hd df_markers_wdd
    jobs results = Ok final →
  dom final = dom results ∪ list_to_set (original_video_name <$> jobs)
  ∧ (∀ name, name ∉ original_video_name <$> jobs →
       final !! name = results !! name)
  ∧ (∀ pre job post, jobs = pre ++ job :: post →
       original_video_name job ∉ original_video_name <$> post →
       ∃ matches,
         match_waggle_runs CoordinateTransformer args
           df_markers_hd df_markers_wdd job (manually_annotated_rows job) []
         = Ok matches
         ∧ final !! original_video_name job = Some matches).
Proof.
  revert results. induction jobs as [|job0 rest IH]; intros results; simpl.
  - intros [= <-]. split_and!; [by rewrite (right_id_L ∅ (∪))|done|].
    intros pre job post Hjobs. by destruct pre.
  - destruct (match_waggle_runs _ _ _ _ job0 _ []) as [matches0|] eqn:Hrun0;
      [|done].
    unfold_bind. intros (Hdom & Hother & Hlast)%IH. split_and!.
    + rewrite Hdom, dom_insert_L.
      rewrite (comm_L (∪) {[original_video_name job0]} (dom results)).
      by rewrite (assoc_L (∪)).
    + intros name [Hne Hname]%not_elem_of_cons.
      rewrite Hother by done. by rewrite lookup_insert_ne.
    + intros pre job post Hjobs Hpost. destruct pre as [|job0' pre].
      * simpl in Hjobs. injection Hjobs as <- <-.
        exists matches0. split; [done|].
        rewrite Hother by done. apply lookup_insert_eq.
      * simpl in Hjobs. injection Hjobs as <- ->. by eapply Hlast.
Qed.

(** X17: the records of one video follow its table of manual annotations:
    each record carries the annotation of its own waggle run, the records
    come in the order of the rows, and a row gives at most one record. *)
Theorem records_follow_annotations (job : VideoJob) (matches : list MatchRecord) :
  match_waggle_runs CoordinateTransformer args df_markers_hd df_markers_wdd
    job (manually_annotated_rows job) [] = Ok matches →
  manual_annotation <$> matches `sublist_of` manually_annotated_rows job
  ∧ (length matches ≤ length (manually_annotated_rows job))%nat.
Proof.
  intros (new & -> & Hsub)%match_waggle_runs_appends. simpl.
  split; [done|]. apply sublist_length in Hsub. by rewrite length_fmap in Hsub.
Qed.

(** X18: when [main] returns, the keys of the dictionary are the names of
    the original videos, and under a name stand the records of the last
    cut video with that name: what an earlier cut video of the same
    original video had produced is gone. *)
Theorem results_keys_last_video (jobs : list VideoJob)
    (results : gmap string (list MatchRecord)) :
  main CoordinateTransformer args df_markers_hd df_markers_wdd jobs
  = Ok results →
  dom results = list_to_set (original_video_name <$> jobs)
  ∧ ∀ pre job post, jobs = pre ++ job :: post →
      original_video_name job ∉ original_video_name <$> post →
      ∃ matches,
        match_waggle_runs CoordinateTransformer args
          df_markers_hd df_markers_wdd job (manually_annotated_rows job) []
        = Ok matches
        ∧ results !! original_video_name job = Some matches.
Proof.
  unfold main. intros (Hdom & _ & Hlast)%match_videos_lookup.
  split; [|done]. by rewrite Hdom, dom_empty_L, (left_id_L ∅ (∪)).
Qed.

(** X19: a frame rate of zero ends the run: as soon as one waggle run of
    such a video gets past the frame synchronisation, the division by the
    frame rate raises, and nothing catches it. *)
Theorem zero_frame_rate_aborts_run (jobs : list VideoJob) (job : VideoJob)
    (row : ManualRow) (frame_offset : Z) :
  job ∈ jobs → row ∈ manually_annotated_rows job →
  video_fps job = 0 →
  get_first_matching_frame_index (original_video job) (cut_video job)
  = Ok frame_offset →
  match_waggle_run CoordinateTransformer args df_markers_hd df_markers_wdd
    job row = Err ZeroDivisionError
  ∧ ∃ e, main CoordinateTransformer args df_markers_hd df_markers_wdd jobs
         = Err e.
Proof.
  intros Hjob Hrow Hfps Hsync.
  assert (Hrun : match_waggle_run CoordinateTransformer args
                   df_markers_hd df_markers_wdd job row
                 = Err ZeroDivisionError).
  { unfold match_waggle_run. rewrite Hsync, Hfps. reflexivity. }
  split; [done|].
  destruct (match_waggle_runs_error CoordinateTransformer args
              df_markers_hd df_markers_wdd job _ [] row _ Hrow Hrun)
    as [e He].
  apply (match_videos_error CoordinateTransformer args
           df_markers_hd df_markers_wdd jobs ∅ job e Hjob He).
Qed.

End Results.

Lemma records_follow_annotations_witness :
  manual_annotation
    <$> [ {| manual_annotation := Sample.annotation; candidates := [] |} ]
    `sublist_of` [Sample.annotation]
  ∧ (length [ {| manual_annotation := Sample.annotation; candidates := [] |} ]
     ≤ length [Sample.annotation])%nat.
Proof.
  apply (records_follow_annotations
           (spec_CoordinateTransformer coincident_fit) Sample.args
           Sample.three_markers Sample.three_markers
           (Sample.job "cam-1_a.mp4" [Sample.tagged_waggle "w1"])).
  vm_compute. reflexivity.
Defined.

Lemma results_keys_last_video_witness :
  dom ({[ "cam-1_a.mp4" := [] ]} : gmap string (list MatchRecord))
  = list_to_set
      (original_video_name
         <$> [Sample.job "cam-1_a.mp4" [Sample.tagged_waggle "w1"];
              Sample.unopened_job "cam-1_a.mp4" []])
  ∧ ∀ pre job post,
      [Sample.job "cam-1_a.mp4" [Sample.tagged_waggle "w1"];
       Sample.unopened_job "cam-1_a.mp4" []] = pre ++ job :: post →
      original_video_name job ∉ original_video_name <$> post →
      ∃ matches,
        match_waggle_runs (spec_CoordinateTransformer coincident_fit)
          Sample.args Sample.three_markers Sample.three_markers
          job (manually_annotated_rows job) [] = Ok matches
        ∧ ({[ "cam-1_a.mp4" := [] ]} : gmap string (list MatchRecord))
            !! original_video_name job = Some matches.
Proof.
  apply (results_keys_last_video
           (spec_CoordinateTransformer coincident_fit) Sample.args
           Sample.three_markers Sample.three_markers).
  vm_compute. reflexivity.
Defined.

Lemma zero_frame_rate_aborts_run_witness :
  ∃ e, main (spec_CoordinateTransformer coincident_fit) Sample.args
         Sample.three_markers Sample.three_markers
         [ {| original_video_name := "cam-1_a.mp4"; timestamp := Sample.T0;
              video_fps := main_video_fps true (S754_finite false 1 (-1));
              original_video := Sample.recording; cut_video := Sample.cut;
              all_candidates := [Sample.detection]; csv_df := [];
              manually_annotated_rows := [Sample.annotation] |} ]
       = Err e.
Proof.
  eapply (zero_frame_rate_aborts_run
            (spec_CoordinateTransformer coincident_fit) Sample.args
            Sample.three_markers Sample.three_markers _ _ Sample.annotation 50).
  - left.
  - left.
  - reflexivity.
  - vm_compute. reflexivity.
Defined.

(** ** File names and timestamp texts *)

Section FileNames.

Lemma string_app_assoc (s1 s2 s3 : string) :
  (s1 +:+ s2) +:+ s3 = s1 +:+ s2 +:+ s3.
Proof.
  induction s1 as [|c s1 IH]; [done|].
  change (String c ((s1 +:+ s2) +:+ s3) = String c (s1 +:+ s2 +:+ s3)).
  by f_equal.
Qed.

Lemma count_zero_cons sep c s :
  Str.count sep (String c s) = 0%nat →
  Ascii.eqb c sep = false ∧ Str.count sep s = 0%nat.
Proof. simpl. destruct (Ascii.eqb c sep); [done|]. simpl. auto. Qed.

(** A section that holds no separator is split off whole. *)
Lemma split_clean_head sep s0 t :
  Str.count sep s0 = 0%nat →
  Str.split sep (s0 +:+ String sep t) = s0 :: Str.split sep t.
Proof.
  induction s0 as [|c s0 IH]; simpl.
  - intros _. by rewrite Ascii.eqb_refl.
  - intros [Hc Hs0]%count_zero_cons. rewrite Hc, IH by done. done.
Qed.

Lemma split_clean sep s : Str.count sep s = 0%nat → Str.split sep s = [s].
Proof.
  induction s as [|c s IH]; simpl; [done|].
  intros [Hc Hs]%count_zero_cons. by rewrite Hc, IH.
Qed.

(** X20: of a text with two or more dots the normalizer keeps the first
    two sections and puts a "Z" after them: all that follows the second
    dot is dropped, whether or not it ended in "Z". *)
Theorem truncate_keeps_two_sections (s0 s1 rest : string) :
  Str.count dot s0 = 0%nat → Str.count dot s1 = 0%nat →
  truncate_higher_precision_timestamp (s0 +:+ "." +:+ s1 +:+ "." +:+ rest)
  = s0 +:+ "." +:+ s1 +:+ "Z".
Proof.
  intros H0 H1. unfold truncate_higher_precision_timestamp.
  change ("." +:+ s1 +:+ "." +:+ rest) with (String dot (s1 +:+ String dot rest)).
  assert (Hsplit : Str.split dot (s0 +:+ String dot (s1 +:+ String dot rest))
                   = s0 :: s1 :: Str.split dot rest)
    by (by rewrite !split_clean_head).
  pose proof (split_length dot (s0 +:+ String dot (s1 +:+ String dot rest)))
    as Hlen.
  rewrite Hsplit in Hlen. simpl in Hlen.
  pose proof (split_length dot rest) as Hrest.
  destruct (Nat.leb_spec 2
              (Str.count dot (s0 +:+ String dot (s1 +:+ String dot rest))))
    as [_|?]; [|lia].
  rewrite Hsplit. reflexivity.
Qed.

Lemma truncate_keeps_two_sections_witness :
  truncate_higher_precision_timestamp
    ("20240904T122936" +:+ "." +:+ "14581" +:+ "." +:+ "115")
  = "20240904T122936" +:+ "." +:+ "14581" +:+ "Z".
Proof.
  apply (truncate_keeps_two_sections "20240904T122936" "14581" "115");
    reflexivity.
Defined.

(** X21: the name of the original video exists exactly when the file name
    holds an underscore, and it is made of the first two parts between
    underscores only: whatever follows the second underscore does not
    count, so all cut videos of one original video get the same name. *)
Theorem original_video_name_first_two_parts (suffix : string) :
  (∀ name, original_video_name_of name suffix = None
           ↔ Str.count underscore name = 0%nat)
  ∧ ∀ part0 part1 rest,
      Str.count underscore part0 = 0%nat →
      Str.count underscore part1 = 0%nat →
      original_video_name_of (part0 +:+ "_" +:+ part1 +:+ "_" +:+ rest) suffix
      = original_video_name_of (part0 +:+ "_" +:+ part1) suffix
      ∧ original_video_name_of (part0 +:+ "_" +:+ part1) suffix
        = Some (part0 +:+ "_" +:+ part1
                +:+ (if Text.endswith part1 "Z" then "" else "Z") +:+ suffix).
Proof.
  split.
  - intros name. unfold original_video_name_of.
    pose proof (split_length underscore name) as Hlen.
    destruct (Str.split underscore name) as [|p0 [|p1 more]];
      simpl in Hlen; split; intros; try done; lia.
  - intros part0 part1 rest H0 H1. unfold original_video_name_of.
    change ("_" +:+ part1 +:+ "_" +:+ rest)
      with (String underscore (part1 +:+ String underscore rest)).
    change ("_" +:+ part1) with (String underscore part1).
    rewrite !split_clean_head by done. by rewrite split_clean.
Qed.

Lemma original_video_name_first_two_parts_witness :
  original_video_name_of
    ("cam-1" +:+ "_" +:+ "20240904T122936.14581.115Z--20240904T123435Z"
     +:+ "_" +:+ "14.30_40.mp4") ".mp4"
  = original_video_name_of
      ("cam-1" +:+ "_" +:+ "20240904T122936.14581.115Z--20240904T123435Z")
      ".mp4"
  ∧ original_video_name_of
      ("cam-1" +:+ "_" +:+ "20240904T122936.14581.115Z--20240904T123435Z")
      ".mp4"
    = Some ("cam-1" +:+ "_" +:+ "20240904T122936.14581.115Z--20240904T123435Z"
            +:+ (if Text.endswith
                      "20240904T122936.14581.115Z--20240904T123435Z" "Z"
                 then "" else "Z") +:+ ".mp4").
Proof.
  apply (proj2 (original_video_name_first_two_parts ".mp4")
           "cam-1" "20240904T122936.14581.115Z--20240904T123435Z"
           "14.30_40.mp4"); reflexivity.
Defined.

(** A name without the final "Z" gets one, a name with it is left alone,
    and a name without an underscore gives no name at all. *)
Example original_video_name_samples :
  original_video_name_of "cam-1_20240904T122936Z--20240904T123435_14.30.mp4" ".mp4"
  = Some "cam-1_20240904T122936Z--20240904T123435Z.mp4"
  ∧ original_video_name_of "cam-1_20240904T122936Z--20240904T123435Z_14.30.mp4" ".mp4"
    = Some "cam-1_20240904T122936Z--20240904T123435Z.mp4"
  ∧ original_video_name_of "recording.mp4" ".mp4" = None.
Proof. by vm_compute. Qed.

Lemma string_app_cons c (s t : string) : String c s +:+ t = String c (s +:+ t).
Proof. reflexivity. Qed.

Lemma prefix_first_char_differs c0 old c s :
  Ascii.eqb c c0 = false → String.prefix (String c0 old) (String c s) = false.
Proof.
  intros Hc. simpl. destruct (ascii_dec c0 c) as [->|]; [|done].
  by rewrite Ascii.eqb_refl in Hc.
Qed.

(** Replacing leaves alone a stretch of text without the first character
    of what is replaced. *)
Lemma replace_from_clean_head c0 old new s0 t :
  Str.count c0 s0 = 0%nat →
  Text.replace_from (String c0 old) new 0 (s0 +:+ t)
  = s0 +:+ Text.replace_from (String c0 old) new 0 t.
Proof.
  induction s0 as [|c s0 IH]; [done|].
  intros [Hc Hs0]%count_zero_cons. rewrite !string_app_cons.
  cbn [Text.replace_from].
  rewrite prefix_first_char_differs by done. by rewrite IH.
Qed.

(** The head of a partition is a stretch of text without the first
    character of the separator, when the separator follows it. *)
Lemma partition_head_clean_head c0 sep s0 t :
  Str.count c0 s0 = 0%nat →
  String.prefix (String c0 sep) t = true →
  Text.partition_head (String c0 sep) (s0 +:+ t) = s0.
Proof.
  intros Hs0 Ht. induction s0 as [|c s0 IH].
  - change (EmptyString +:+ t) with t. destruct t as [|c t]; [done|].
    cbn [Text.partition_head]. by rewrite Ht.
  - apply count_zero_cons in Hs0 as [Hc Hs0]. rewrite string_app_cons.
    cbn [Text.partition_head].
    rewrite prefix_first_char_differs by done. by rewrite IH.
Qed.

Lemma replace_cam_prefix (s : string) :
  Text.replace "cam-1_" "" ("cam-1_" +:+ s) = Text.replace "cam-1_" "" s.
Proof. destruct s; reflexivity. Qed.

Lemma prefix_dashes_kept (s : string) :
  String.prefix "--" (Text.replace_from "cam-1_" "" 0 ("--" +:+ s)) = true.
Proof.
  change (String.prefix "--"
            (String "-" (String "-" (Text.replace_from "cam-1_" "" 0 s)))
          = true).
  by destruct (Text.replace_from "cam-1_" "" 0 s).
Qed.

(** X22: the start time written in the file name is the text that is
    parsed.  For a cut video named "cam-1_<start>--<end>_<more>", where the
    start holds no "c", "-" or "_" and the end no "_", the name of the
    original video exists and the timestamp text taken from it is the
    normalized start, whatever the end, the rest and the suffix are. *)
Theorem timestamp_text_from_file_name (start stop more suffix : string) :
  Str.count "c" start = 0%nat →
  Str.count "-" start = 0%nat →
  Str.count underscore start = 0%nat →
  Str.count underscore stop = 0%nat →
  ∃ original_video_name,
    original_video_name_of
      ("cam-1_" +:+ start +:+ "--" +:+ stop +:+ "_" +:+ more) suffix
    = Some original_video_name
    ∧ timestampstr_of original_video_name
      = truncate_higher_precision_timestamp start.
Proof.
  intros Hc Hdash Hus Hstop.
  exists ("cam-1_" +:+ start
          +:+ ("--" +:+ stop
               +:+ (if Text.endswith (start +:+ "--" +:+ stop) "Z"
                    then "" else "Z") +:+ suffix)).
  split.
  - unfold original_video_name_of.
    change ("cam-1_" +:+ start +:+ "--" +:+ stop +:+ "_" +:+ more)
      with ("cam-1" +:+ String underscore
              (start +:+ "--" +:+ stop +:+ String underscore more)).
    rewrite split_clean_head by done.
    replace (start +:+ "--" +:+ stop +:+ String underscore more)
      with ((start +:+ "--" +:+ stop) +:+ String underscore more)
      by (by rewrite !string_app_assoc).
    rewrite split_clean_head
      by (rewrite !count_app, Hus, Hstop; reflexivity).
    rewrite !string_app_assoc. reflexivity.
  - unfold timestampstr_of. f_equal.
    rewrite replace_cam_prefix. unfold Text.replace.
    rewrite (replace_from_clean_head "c" "am-1_" "" start) by done.
    apply (partition_head_clean_head "-" "-" start); [done|].
    apply prefix_dashes_kept.
Qed.

Lemma timestamp_text_from_file_name_witness :
  ∃ original_video_name,
    original_video_name_of
      ("cam-1_" +:+ "20240904T122936.14581.115Z" +:+ "--"
       +:+ "20240904T123435.952057.695Z" +:+ "_" +:+ "14.30_40.mp4") ".mp4"
    = Some original_video_name
    ∧ timestampstr_of original_video_name
      = truncate_higher_precision_timestamp "20240904T122936.14581.115Z".
Proof.
  apply (timestamp_text_from_file_name "20240904T122936.14581.115Z"
           "20240904T123435.952057.695Z" "14.30_40.mp4" ".mp4");
    reflexivity.
Defined.

End FileNames.

(** ** Accuracy of the elapsed time *)

Section ElapsedAccuracy.

(** X23: at the frame rate of the HD camera the elapsed time of each of
    the first 5000 frames is within half a microsecond of the exact
    quotient of frame number and frame rate. *)
Theorem elapsed_time_accuracy (n : Z) :
  0 ≤ n < 5000 →
  ∃ e, time_elapsed n HD_CAM_FPS = Ok e
    ∧ 2 * Z.abs (HD_CAM_FPS * e - n * us_per_second) ≤ HD_CAM_FPS.
Proof.
  intros Hn. exists (nearest_microsecond n HD_CAM_FPS).
  split; [by apply time_elapsed_at_HD_CAM_FPS|].
  unfold nearest_microsecond, HD_CAM_FPS, us_per_second.
  pose proof (Z.div_mod (2 * n * 1000000 + 15) (2 * 15) ltac:(lia)) as Hdm.
  pose proof (Z.mod_pos_bound (2 * n * 1000000 + 15) (2 * 15) ltac:(lia)) as Hm.
  lia.
Qed.

Lemma elapsed_time_accuracy_witness :
  ∃ e, time_elapsed 1 HD_CAM_FPS = Ok e
    ∧ 2 * Z.abs (HD_CAM_FPS * e - 1 * us_per_second) ≤ HD_CAM_FPS.
Proof. apply (elapsed_time_accuracy 1). lia. Defined.

End ElapsedAccuracy.
